(** * The torsional metric model [EinsteinFinalTorsional]

    A shallow embedding of the class [EinsteinFinalTorsional] of
    [code.py] and the properties of its constructor and of [get_metric].
    The 13 lines of the class are embedded over three arithmetics.

    Exact arithmetic (modules [Num] to [Model]).  A tensor element and a
    Python float are an exact rational extended with the three special
    values of IEEE-754 ([+inf], [-inf], [nan]): no rounding, no overflow or
    underflow, a single zero, no dtype.  What is proved on it is either
    independent of the arithmetic (the method does not write to the
    instance) or a statement about exact arithmetic, and says so.

    Any arithmetic (module [Generic]).  What Python does on two numbers
    (it may raise, [OverflowError] included) and what the backend does on
    two tensor entries are left open; the theorems proved on it hold of
    every arithmetic.

    Binary64 (module [IEEE]).  The instance of the above with Python floats
    and [torch.float64] entries: signed zeros, rounding to nearest even,
    overflow to an infinity, underflow to zero, and the exceptions Python
    raises on floats.

    Tensors.  A tensor is a shape (outermost dimension first, as
    [torch.Size]) and a flat row-major buffer.  Element-wise operations
    broadcast as the torch backend does.

    Python values.  An argument of [get_metric] is either a Python number
    or a tensor; arithmetic dispatches on that as Python does (a division
    of two Python numbers raises [ZeroDivisionError] on a zero divisor, a
    division involving a tensor never raises). *)

From Stdlib Require Import Ascii String DecimalString.
From Stdlib Require Import List Arith Lia ZArith QArith Qabs Qcanon Bool.
From Stdlib Require DecimalN SpecFloat.
Import ListNotations.

Close Scope Qc_scope.
Close Scope Q_scope.

(** ** Extended rationals *)

Module Num.

Local Open Scope Qc_scope.

(** A number of the exact arithmetic: a rational, or one of the special
    values. *)
Inductive xnum : Type :=
| Fin (q : Qc)
| PInf
| NInf
| NaN.

Definition zero : Qc := Q2Qc 0.
Definition one : Qc := Q2Qc 1.
Definition two : Qc := Q2Qc 2.

(** The sign of a rational, as a comparison with zero. *)
Definition sgn (q : Qc) : comparison := (q ?= zero)%Qc.

Definition is_zero (q : Qc) : bool :=
  match sgn q with Eq => true | _ => false end.

(** An infinity of the given sign; the sign of zero gives [nan]
    (as in [0 * inf]). *)
Definition inf_of (c : comparison) : xnum :=
  match c with Gt => PInf | Lt => NInf | Eq => NaN end.

Definition xneg (x : xnum) : xnum :=
  match x with
  | Fin q => Fin (- q)
  | PInf => NInf
  | NInf => PInf
  | NaN => NaN
  end.

Definition xadd (x y : xnum) : xnum :=
  match x, y with
  | NaN, _ | _, NaN => NaN
  | Fin a, Fin b => Fin (a + b)
  | PInf, NInf | NInf, PInf => NaN
  | PInf, _ | _, PInf => PInf
  | NInf, _ | _, NInf => NInf
  end.

Definition xsub (x y : xnum) : xnum := xadd x (xneg y).

Definition xmul (x y : xnum) : xnum :=
  match x, y with
  | NaN, _ | _, NaN => NaN
  | Fin a, Fin b => Fin (a * b)
  | Fin a, PInf | PInf, Fin a => inf_of (sgn a)
  | Fin a, NInf | NInf, Fin a => inf_of (CompOpp (sgn a))
  | PInf, PInf | NInf, NInf => PInf
  | PInf, NInf | NInf, PInf => NInf
  end.

(** IEEE division: a finite non-zero value over zero is an infinity,
    zero over zero is [nan], a finite value over an infinity is zero. *)
Definition xdiv (x y : xnum) : xnum :=
  match x, y with
  | NaN, _ | _, NaN => NaN
  | Fin a, Fin b => if is_zero b then inf_of (sgn a) else Fin (a / b)
  | Fin _, (PInf | NInf) => Fin zero
  | PInf, Fin b => match sgn b with Lt => NInf | _ => PInf end
  | NInf, Fin b => match sgn b with Lt => PInf | _ => NInf end
  | (PInf | NInf), (PInf | NInf) => NaN
  end.

(** [x ** n] for a literal exponent [n]. *)
Fixpoint xpow (x : xnum) (n : nat) : xnum :=
  match n with
  | O => Fin one
  | S n' => xmul x (xpow x n')
  end.

Definition finite (x : xnum) : bool :=
  match x with Fin _ => true | _ => false end.

(** The rational carried by a finite value (zero otherwise). *)
Definition qval (x : xnum) : Qc :=
  match x with Fin q => q | _ => zero end.

Definition xeqb (x y : xnum) : bool :=
  match x, y with
  | Fin a, Fin b => Qc_eq_bool a b
  | PInf, PInf | NInf, NInf | NaN, NaN => true
  | _, _ => false
  end.

End Num.
Export Num.

(** ** Tensors and broadcasting *)

Module Tensor.

(** [shape] is the torch size (outermost dimension first); [data] the
    row-major buffer.  The entries are exact: there is no dtype here (an
    entry of [Generic.tensor] carries what its backend needs). *)
Record tensor : Type := mkT { shape : list nat; data : list xnum }.

Definition numel (s : list nat) : nat := fold_right Nat.mul 1 s.

(** A tensor is well formed when its buffer has one entry per index. *)
Definition wf (t : tensor) : Prop := length (data t) = numel (shape t).

(** Broadcasting aligns shapes on their last dimension, so the helpers
    below work on reversed shapes and indices (innermost first). *)

Definition bc_dim (a b : nat) : option nat :=
  if a =? b then Some a
  else if a =? 1 then Some b
  else if b =? 1 then Some a
  else None.

Fixpoint bc_rev (s1 s2 : list nat) : option (list nat) :=
  match s1, s2 with
  | [], _ => Some s2
  | _, [] => Some s1
  | a :: s1', b :: s2' =>
      match bc_dim a b, bc_rev s1' s2' with
      | Some d, Some s => Some (d :: s)
      | _, _ => None
      end
  end.

(** [torch.broadcast_shapes] on two sizes. *)
Definition broadcast_shapes (s1 s2 : list nat) : option (list nat) :=
  option_map (@rev nat) (bc_rev (rev s1) (rev s2)).

(** The multi-index (innermost first) of flat position [k]. *)
Fixpoint unravel_rev (s : list nat) (k : nat) : list nat :=
  match s with
  | [] => []
  | d :: s' => (k mod d) :: unravel_rev s' (k / d)
  end.

(** The flat position read in a tensor of reversed shape [s] at the
    (possibly longer) index [idx]: a dimension of size one is read at
    zero, dimensions the tensor lacks are ignored. *)
Fixpoint offset_rev (s idx : list nat) : nat :=
  match s, idx with
  | d :: s', i :: idx' => (if d =? 1 then 0 else i) + d * offset_rev s' idx'
  | _, _ => 0
  end.

(** The element of [t] seen at the reversed index [ridx] of a shape [t]
    broadcasts to. *)
Definition get_rev (t : tensor) (ridx : list nat) : xnum :=
  nth (offset_rev (rev (shape t)) ridx) (data t) NaN.

(** The same with the index in torch order. *)
Definition get (t : tensor) (idx : list nat) : xnum := get_rev t (rev idx).

(** [idx] is an index of a tensor of shape [s]. *)
Definition in_range (s idx : list nat) : Prop := Forall2 lt idx s.

(** A 0-dimensional tensor, as [torch.as_tensor] makes of a number. *)
Definition scalar_tensor (x : xnum) : tensor := mkT [] [x].

(** Element-wise unary operation. *)
Definition map1 (f : xnum -> xnum) (t : tensor) : tensor :=
  mkT (shape t) (map f (data t)).

(** Element-wise binary operation with broadcasting; [None] when the
    shapes are not broadcastable (torch raises [RuntimeError]). *)
Definition map2 (f : xnum -> xnum -> xnum) (a b : tensor) : option tensor :=
  match bc_rev (rev (shape a)) (rev (shape b)) with
  | None => None
  | Some s =>
      Some (mkT (rev s)
              (map (fun k => let ridx := unravel_rev s k in
                             f (get_rev a ridx) (get_rev b ridx))
                 (seq 0 (numel s))))
  end.

(** [torch.zeros_like]. *)
Definition zeros_like (t : tensor) : tensor :=
  mkT (shape t) (repeat (Fin zero) (numel (shape t))).

Definition teqb (a b : tensor) : bool :=
  andb (if list_eq_dec Nat.eq_dec (shape a) (shape b) then true else false)
       (andb (length (data a) =? length (data b))
             (forallb (fun p => xeqb (fst p) (snd p)) (combine (data a) (data b)))).

End Tensor.
Export Tensor.

(** ** Python values and arithmetic *)

Module Py.

Inductive exn : Type :=
| ZeroDivisionError
| OverflowError
| RuntimeError
| TypeError
| AttributeError.

Inductive result (A : Type) : Type :=
| Ok (a : A)
| Raise (e : exn).
Arguments Ok {A} a.
Arguments Raise {A} e.

(** An argument of [get_metric]: a Python number or a torch tensor. *)
Inductive pyval : Type :=
| Num (x : xnum)
| Tens (t : tensor).

(** A Python number met by a tensor operand acts as a 0-dimensional
    tensor. *)
Definition as_tensor (v : pyval) : tensor :=
  match v with
  | Num x => scalar_tensor x
  | Tens t => t
  end.

(** An operator applied with at least one tensor operand. *)
Definition tensor_op (f : xnum -> xnum -> xnum) (a b : pyval) : result pyval :=
  match map2 f (as_tensor a) (as_tensor b) with
  | Some t => Ok (Tens t)
  | None => Raise RuntimeError
  end.

(** [a + b], [a - b], [a * b]. *)
Definition py_arith (f : xnum -> xnum -> xnum) (a b : pyval) : result pyval :=
  match a, b with
  | Num x, Num y => Ok (Num (f x y))
  | _, _ => tensor_op f a b
  end.

Definition py_add : pyval -> pyval -> result pyval := py_arith xadd.
Definition py_sub : pyval -> pyval -> result pyval := py_arith xsub.
Definition py_mul : pyval -> pyval -> result pyval := py_arith xmul.

(** A Python number that compares equal to zero. *)
Definition num_is_zero (x : xnum) : bool :=
  match x with Fin q => is_zero q | _ => false end.

(** [a / b]: Python raises on a zero divisor when both operands are
    Python numbers; torch divides element-wise and never raises. *)
Definition py_truediv (a b : pyval) : result pyval :=
  match a, b with
  | Num x, Num y =>
      if num_is_zero y then Raise ZeroDivisionError else Ok (Num (xdiv x y))
  | _, _ => tensor_op xdiv a b
  end.

(** [a ** n] for a literal [n].  An exact power neither overflows nor
    underflows, so nothing is raised here; what Python does when a float
    power overflows is in [Generic.py_pow] and [IEEE.py_float_pow]. *)
Definition py_pow (a : pyval) (n : nat) : pyval :=
  match a with
  | Num x => Num (xpow x n)
  | Tens t => Tens (map1 (fun x => xpow x n) t)
  end.

(** [- a]. *)
Definition py_neg (a : pyval) : pyval :=
  match a with
  | Num x => Num (xneg x)
  | Tens t => Tens (map1 xneg t)
  end.

(** [torch.zeros_like(a)] accepts tensors only. *)
Definition torch_zeros_like (a : pyval) : result pyval :=
  match a with
  | Num _ => Raise TypeError
  | Tens t => Ok (Tens (zeros_like t))
  end.

Definition pyeqb (a b : pyval) : bool :=
  match a, b with
  | Num x, Num y => xeqb x y
  | Tens s, Tens t => teqb s t
  | _, _ => false
  end.

Definition outputs_eqb (a b : pyval * pyval * pyval * pyval) : bool :=
  match a, b with
  | (a0, a1, a2, a3), (b0, b1, b2, b3) =>
      andb (andb (pyeqb a0 b0) (pyeqb a1 b1)) (andb (pyeqb a2 b2) (pyeqb a3 b3))
  end.

End Py.
Export Py.

(** ** Formatting with [+.2f] *)

Module Format.

Local Open Scope Z_scope.

(** The nearest integer to a non-negative rational, ties to even. *)
Definition round_half_even (q : Q) : Z :=
  let n := Qnum q in
  let d := Zpos (Qden q) in
  let fl := n / d in
  match 2 * (n mod d) ?= d with
  | Lt => fl
  | Gt => fl + 1
  | Eq => if Z.even fl then fl else fl + 1
  end.

(** [|q|] in hundredths, correctly rounded. *)
Definition hundredths (q : Qc) : Z :=
  round_half_even (Qabs (this q) * (100 # 1))%Q.

Definition digit (d : Z) : ascii := ascii_of_nat (48 + Z.to_nat d).

Definition decimal (n : Z) : string :=
  NilZero.string_of_uint (N.to_uint (Z.to_N n)).

Definition two_digits (n : Z) : string :=
  String (digit (n / 10)) (String (digit (n mod 10)) EmptyString).

(** The sign printed for an exact rational; the rationals have a single
    zero, printed ["+"].  The sign bit of a float, set for [-0.0], is in
    [IEEE.format_plus_2f]. *)
Definition sign_char (q : Qc) : ascii :=
  match sgn q with
  | Lt => "-"%char
  | _ => "+"%char
  end.

(** [format(x, '+.2f')] for a Python float [x]. *)
Definition format_plus_2f (x : xnum) : string :=
  match x with
  | Fin q =>
      let n := hundredths q in
      String (sign_char q) (decimal (n / 100) ++ "." ++ two_digits (n mod 100))%string
  | PInf => "+inf"%string
  | NInf => "-inf"%string
  | NaN => "+nan"%string
  end.

Definition is_digit (c : ascii) : bool :=
  let n := nat_of_ascii c in andb (48 <=? n)%nat (n <=? 57)%nat.

Fixpoint all_digits (s : string) : bool :=
  match s with
  | EmptyString => true
  | String c s' => andb (is_digit c) (all_digits s')
  end.

End Format.
Export Format.

(** ** The class [EinsteinFinalTorsional] *)

Module Model.

(** The instance together with the class attributes it sees.  An
    attribute that was never set is [None]. *)
Record object : Type := mkObj {
  name : option string;
  alpha : option tensor;
  sweep : option unit;
  cacheable : bool
}.

(** A method body: it runs on the instance and may raise; the instance
    survives a raise. *)
Definition method (A : Type) : Type := object -> result A * object.

Definition ret {A : Type} (a : A) : method A := fun self => (Ok a, self).

Definition bind {A B : Type} (m : method A) (k : A -> method B) : method B :=
  fun self =>
    match m self with
    | (Ok a, self') => k a self'
    | (Raise e, self') => (Raise e, self')
    end.

(** An operator applied to values: it does not touch the instance. *)
Definition eval {A : Type} (r : result A) : method A := fun self => (r, self).

(** [self.alpha]. *)
Definition getattr_alpha : method tensor :=
  fun self =>
    match alpha self with
    | Some a => (Ok a, self)
    | None => (Raise AttributeError, self)
    end.

(** [self.alpha = a]. *)
Definition setattr_alpha (a : tensor) : method unit :=
  fun self => (Ok tt, mkObj (name self) (Some a) (sweep self) (cacheable self)).

Notation "x <- m ;; k" := (bind m (fun x => k))
  (at level 61, m at next level, right associativity).

(** Modelled from the spec: [EinsteinFinalBase.__init__], whose source is
    not part of the fragment, stores the string it is given as the display
    name of the instance. *)
Definition EinsteinFinalBase_init (nm : string) : method unit :=
  fun self => (Ok tt, mkObj (Some nm) (alpha self) (sweep self) (cacheable self)).

(** The f-string of the constructor. *)
Definition display_name (a : xnum) : string :=
  ("Einstein Final (Torsional, α=" ++ format_plus_2f a ++ ")")%string.

(** [__init__(self, alpha)].  The device and the dtype given to
    [torch.as_tensor] do not change the value in exact arithmetic. *)
Definition init (a : xnum) : method unit :=
  _ <- EinsteinFinalBase_init (display_name a) ;;
  setattr_alpha (scalar_tensor a).

(** The class body: [sweep = None], [cacheable = True]. *)
Definition class_attrs : object := mkObj None None None true.

(** [EinsteinFinalTorsional(alpha)]. *)
Definition EinsteinFinalTorsional (a : xnum) : object :=
  snd (init a class_attrs).

Section GetMetric.

(** The module constant [EPSILON], a finite Python float defined outside
    the fragment. *)
Variable EPSILON : Qc.

Definition outputs : Type := (pyval * pyval * pyval * pyval)%type.

(** [get_metric(self, r, M_param, C_param, G_param)]. *)
Definition get_metric (r M_param C_param G_param : pyval) : method outputs :=
  (* rs = 2 * G_param * M_param / C_param**2 *)
  g2 <- eval (py_mul (Num (Fin two)) G_param) ;;
  gm <- eval (py_mul g2 M_param) ;;
  rs <- eval (py_truediv gm (py_pow C_param 2)) ;;
  (* m = 1 - rs/r + self.alpha * (rs/r)**4 *)
  x <- eval (py_truediv rs r) ;;
  u <- eval (py_sub (Num (Fin one)) x) ;;
  a <- getattr_alpha ;;
  x' <- eval (py_truediv rs r) ;;
  v <- eval (py_mul (Tens a) (py_pow x' 4)) ;;
  m <- eval (py_add u v) ;;
  (* return -m, 1/(m + EPSILON), r**2, torch.zeros_like(r) *)
  d <- eval (py_add m (Num (Fin EPSILON))) ;;
  inv <- eval (py_truediv (Num (Fin one)) d) ;;
  z <- eval (torch_zeros_like r) ;;
  ret (py_neg m, inv, py_pow r 2, z).

(** A sequence of calls on one instance, each with its own arguments;
    the results are collected in order. *)
Definition call_args : Type := (pyval * pyval * pyval * pyval)%type.

Fixpoint calls (l : list call_args) (self : object)
  : list (result outputs) * object :=
  match l with
  | [] => ([], self)
  | (r, M, C, G) :: l' =>
      let (o, self') := get_metric r M C G self in
      let (os, self'') := calls l' self' in
      (o :: os, self'')
  end.

End GetMetric.

End Model.
Export Model.

(** ** Vocabulary of the statements *)

Module Sem.

(** [s] broadcasts to [S] (reversed shapes): every dimension of [s] is
    one or the dimension of [S] it is aligned with. *)
Fixpoint bto (s S : list nat) : Prop :=
  match s, S with
  | [], _ => True
  | _ :: _, [] => False
  | d :: s', D :: S' => (d = 1 \/ d = D) /\ bto s' S'
  end.

(** The torch size of a value; a Python number has none. *)
Definition pshape (v : pyval) : list nat :=
  match v with
  | Num _ => []
  | Tens t => shape t
  end.

(** The element of [v] seen at a reversed index by broadcasting. *)
Definition pget (v : pyval) (ridx : list nat) : xnum :=
  match v with
  | Num x => x
  | Tens t => get_rev t ridx
  end.

(** The element of [v] seen at index [idx] (torch order). *)
Definition at_ (v : pyval) (idx : list nat) : xnum := pget v (rev idx).

(** Its rational value. *)
Definition qat (v : pyval) (idx : list nat) : Qc := qval (at_ v idx).

Definition is_num (v : pyval) : bool :=
  match v with
  | Num _ => true
  | Tens _ => false
  end.

Definition wfv (v : pyval) : Prop :=
  match v with
  | Num _ => True
  | Tens t => wf t
  end.

(** What an operator returns on operands that broadcast to [s]. *)
Definition op_result (f : xnum -> xnum -> xnum) (a b c : pyval) (s : list nat)
  : Prop :=
  rev (pshape c) = s /\ wfv c /\
  is_num c = andb (is_num a) (is_num b) /\
  forall S idx, bto s S -> Forall2 lt idx S ->
                pget c idx = f (pget a idx) (pget b idx).

(** Every entry of [v] satisfies [p]. *)
Definition entries (p : xnum -> bool) (v : pyval) : bool :=
  match v with
  | Num x => p x
  | Tens t => forallb p (data t)
  end.

Definition finite_nonzero (x : xnum) : bool :=
  match x with
  | Fin q => negb (is_zero q)
  | _ => false
  end.

(** The size all operands of [get_metric] broadcast to, taken in the
    order the method combines them. *)
Definition broadcast_all (G M C r : pyval) : option (list nat) :=
  match broadcast_shapes (pshape G) (pshape M) with
  | None => None
  | Some s1 =>
      match broadcast_shapes s1 (pshape C) with
      | None => None
      | Some s2 => broadcast_shapes s2 (pshape r)
      end
  end.

(** The division computing [rs] is a division of Python numbers by a
    Python zero. *)
Definition python_zero_division (G M C : pyval) : bool :=
  match G, M, C with
  | Num _, Num _, Num c => num_is_zero c
  | _, _, _ => false
  end.

(** The formulas of the method on extended rationals. *)
Definition xrs (g m c : xnum) : xnum :=
  xdiv (xmul (xmul (Fin two) g) m) (xpow c 2).

Definition xm (a rs r : xnum) : xnum :=
  xadd (xsub (Fin one) (xdiv rs r)) (xmul a (xpow (xdiv rs r) 4)).

Local Open Scope Qc_scope.

(** The same formulas on rationals: the Schwarzschild radius and the
    metric function. *)
Definition rs_of (g m c : Qc) : Qc := two * g * m / c ^ 2.

Definition m_of (a rs r : Qc) : Qc :=
  1 - rs / r + a * (rs / r) ^ 4.

(** Their values at an index of the broadcast operands. *)
Definition rs_at (G M C : pyval) (idx : list nat) : Qc :=
  rs_of (qat G idx) (qat M idx) (qat C idx).

Definition m_at (a : Qc) (r M C G : pyval) (idx : list nat) : Qc :=
  m_of a (rs_at G M C idx) (qat r idx).

(** The metric function on extended rationals at an index. *)
Definition xm_at (a : xnum) (r M C G : pyval) (idx : list nat) : xnum :=
  xm a (xrs (at_ G idx) (at_ M idx) (at_ C idx)) (at_ r idx).

(** Valid inputs: well-formed tensors with finite entries, [r] and
    [C_param] without a zero entry. *)
Definition valid_inputs (t : tensor) (M C G : pyval) : Prop :=
  (wf t /\ wfv M /\ wfv C /\ wfv G) /\
  entries finite_nonzero (Tens t) = true /\
  entries finite M = true /\
  entries finite_nonzero C = true /\
  entries finite G = true.

(** A method body that leaves the instance as it found it. *)
Definition readonly {A : Type} (m : method A) : Prop :=
  forall self, snd (m self) = self.

(** The first statement of [get_metric] on its own. *)
Definition schwarzschild_radius (M C G : pyval) : result pyval :=
  match py_mul (Num (Fin two)) G with
  | Raise e => Raise e
  | Ok g2 =>
      match py_mul g2 M with
      | Raise e => Raise e
      | Ok gm => py_truediv gm (py_pow C 2)
      end
  end.

(** The four components of a result. *)
Definition comp0 (o : outputs) : pyval := fst (fst (fst o)).
Definition comp1 (o : outputs) : pyval := snd (fst (fst o)).
Definition comp2 (o : outputs) : pyval := snd (fst o).
Definition comp3 (o : outputs) : pyval := snd o.


(** The sizes of the four components of a returned result. *)
Definition out_shapes (o : result outputs)
  : option (list nat * list nat * list nat * list nat) :=
  match o with
  | Ok (c0, c1, c2, c3) => Some (pshape c0, pshape c1, pshape c2, pshape c3)
  | Raise _ => None
  end.

End Sem.
Export Sem.

(** ** Sample inputs *)

Module Examples.

Definition q_ (n : Z) (d : positive) : xnum := Fin (Q2Qc (n # d)).

(** A value of [EPSILON]. *)
Definition eps : Qc := Q2Qc (1 # 1000000).

Definition half : Qc := Q2Qc (1 # 2).

(** [torch.tensor([4.])], [torch.tensor([0.])] and
    [torch.tensor([[1., 2.], [4., 8.]])]. *)
Definition r4 : tensor := mkT [1] [q_ 4 1].
Definition r22 : tensor := mkT [2; 2] [q_ 1 1; q_ 2 1; q_ 4 1; q_ 8 1].

(** [torch.tensor([1., 2.])]. *)
Definition pair12 : tensor := mkT [2] [q_ 1 1; q_ 2 1].

(** [torch.tensor([1., 2., 3.])]. *)
Definition triple : tensor := mkT [3] [q_ 1 1; q_ 2 1; q_ 3 1].

(** The Python numbers [1.0], [2.0], [8.0] and [0.0]. *)
Definition n1 : pyval := Num (q_ 1 1).
Definition n2 : pyval := Num (q_ 2 1).
Definition n0 : pyval := Num (q_ 0 1).

(** The 4-tuple of a call that returned. *)
Definition returned (o : result outputs) : outputs :=
  match o with
  | Ok v => v
  | Raise _ => (n0, n0, n0, n0)
  end.

Definition out_a : outputs :=
  returned (fst (get_metric eps (Tens r4) n1 n1 n1
                   (EinsteinFinalTorsional (Fin half)))).

Definition out_b : outputs :=
  returned (fst (get_metric eps (Tens r4) (Tens pair12) n2 n1
                   (EinsteinFinalTorsional (Fin zero)))).

End Examples.

(** ** The class over any arithmetic

    The same class with the arithmetic of Python numbers and of the tensor
    backend left open: what Python does on two numbers (it may raise), what
    the backend does on two entries (rounding, overflow, wrap-around and
    type promotion included), and how a Python number enters a tensor
    operation.  An entry carries whatever the backend needs to know of its
    tensor (its dtype, whether it is 0-dimensional or a wrapped number). *)

Module Generic.

Record backend : Type := mkBackend {
  num : Type;                       (* Python numbers *)
  elem : Type;                      (* tensor entries *)
  n_int : Z -> num;                 (* an integer literal *)
  n_add : num -> num -> result num;
  n_sub : num -> num -> result num;
  n_mul : num -> num -> result num;
  n_truediv : num -> num -> result num;
  n_pow : num -> nat -> result num;
  n_neg : num -> num;
  n_is_zero : num -> bool;          (* [x == 0] *)
  n_format : num -> string;         (* [format(x, '+.2f')] *)
  wrap : num -> result elem;        (* a number as operand of a tensor *)
  as_elem : num -> result elem;     (* [torch.as_tensor(x, dtype=DTYPE)] *)
  e_add : elem -> elem -> elem;
  e_sub : elem -> elem -> elem;
  e_mul : elem -> elem -> elem;
  e_div : elem -> elem -> elem;
  e_pow : elem -> nat -> elem;
  e_neg : elem -> elem;
  e_zero : elem -> elem;            (* the zero of the entry's dtype *)
  e_is_zero : elem -> bool;
  e_finite : elem -> bool;
  e_nan : elem
}.

Section Class.

Variable B : backend.

Record tensor : Type := mkT { shape : list nat; data : list (elem B) }.

Definition wf (t : tensor) : Prop := length (data t) = numel (shape t).

Definition get_rev (t : tensor) (ridx : list nat) : elem B :=
  nth (offset_rev (rev (shape t)) ridx) (data t) (e_nan B).

Definition get (t : tensor) (idx : list nat) : elem B := get_rev t (rev idx).

Definition scalar_tensor (x : elem B) : tensor := mkT [] [x].

Definition map1 (f : elem B -> elem B) (t : tensor) : tensor :=
  mkT (shape t) (map f (data t)).

Definition map2 (f : elem B -> elem B -> elem B) (a b : tensor)
  : option tensor :=
  match bc_rev (rev (shape a)) (rev (shape b)) with
  | None => None
  | Some s =>
      Some (mkT (rev s)
              (map (fun k => let ridx := unravel_rev s k in
                             f (get_rev a ridx) (get_rev b ridx))
                 (seq 0 (numel s))))
  end.

(** [torch.zeros_like]: same size, same dtype. *)
Definition zeros_like (t : tensor) : tensor := map1 (e_zero B) t.

Inductive pyval : Type :=
| Num (x : num B)
| Tens (t : tensor).

Definition as_tensor (v : pyval) : result tensor :=
  match v with
  | Num x =>
      match wrap B x with
      | Ok e => Ok (scalar_tensor e)
      | Raise ex => Raise ex
      end
  | Tens t => Ok t
  end.

Definition tensor_op (f : elem B -> elem B -> elem B) (a b : pyval)
  : result pyval :=
  match as_tensor a with
  | Raise ex => Raise ex
  | Ok ta =>
      match as_tensor b with
      | Raise ex => Raise ex
      | Ok tb =>
          match map2 f ta tb with
          | Some t => Ok (Tens t)
          | None => Raise RuntimeError
          end
      end
  end.

(** A binary operator: Python's on two numbers, the backend's as soon as
    one operand is a tensor. *)
Definition py_arith (nf : num B -> num B -> result (num B))
           (ef : elem B -> elem B -> elem B) (a b : pyval) : result pyval :=
  match a, b with
  | Num x, Num y =>
      match nf x y with
      | Ok z => Ok (Num z)
      | Raise ex => Raise ex
      end
  | _, _ => tensor_op ef a b
  end.

Definition py_add : pyval -> pyval -> result pyval :=
  py_arith (n_add B) (e_add B).
Definition py_sub : pyval -> pyval -> result pyval :=
  py_arith (n_sub B) (e_sub B).
Definition py_mul : pyval -> pyval -> result pyval :=
  py_arith (n_mul B) (e_mul B).
Definition py_truediv : pyval -> pyval -> result pyval :=
  py_arith (n_truediv B) (e_div B).

Definition py_pow (a : pyval) (n : nat) : result pyval :=
  match a with
  | Num x =>
      match n_pow B x n with
      | Ok z => Ok (Num z)
      | Raise ex => Raise ex
      end
  | Tens t => Ok (Tens (map1 (fun x => e_pow B x n) t))
  end.

Definition py_neg (a : pyval) : pyval :=
  match a with
  | Num x => Num (n_neg B x)
  | Tens t => Tens (map1 (e_neg B) t)
  end.

Definition torch_zeros_like (a : pyval) : result pyval :=
  match a with
  | Num _ => Raise TypeError
  | Tens t => Ok (Tens (zeros_like t))
  end.

Record object : Type := mkObj {
  name : option string;
  alpha : option tensor;
  sweep : option unit;
  cacheable : bool
}.

Definition method (A : Type) : Type := object -> result A * object.

Definition ret {A : Type} (a : A) : method A := fun self => (Ok a, self).

Definition bind {A C : Type} (m : method A) (k : A -> method C) : method C :=
  fun self =>
    match m self with
    | (Ok a, self') => k a self'
    | (Raise e, self') => (Raise e, self')
    end.

Definition eval {A : Type} (r : result A) : method A := fun self => (r, self).

Definition getattr_alpha : method tensor :=
  fun self =>
    match alpha self with
    | Some a => (Ok a, self)
    | None => (Raise AttributeError, self)
    end.

Definition setattr_alpha (a : tensor) : method unit :=
  fun self => (Ok tt, mkObj (name self) (Some a) (sweep self) (cacheable self)).

Notation "x <~ m ;; k" := (bind m (fun x => k))
  (at level 61, m at next level, right associativity).

(** Modelled from the spec: [EinsteinFinalBase.__init__], whose source is
    not part of the fragment, stores the string it is given as the display
    name of the instance. *)
Definition EinsteinFinalBase_init (nm : string) : method unit :=
  fun self => (Ok tt, mkObj (Some nm) (alpha self) (sweep self) (cacheable self)).

Definition display_name (a : num B) : string :=
  ("Einstein Final (Torsional, α=" ++ n_format B a ++ ")")%string.

(** [__init__(self, alpha)]. *)
Definition init (a : num B) : method unit :=
  _ <~ EinsteinFinalBase_init (display_name a) ;;
  e <~ eval (as_elem B a) ;;
  setattr_alpha (scalar_tensor e).

Definition class_attrs : object := mkObj None None None true.

(** [EinsteinFinalTorsional(alpha)]: the instance, unless the constructor
    raises. *)
Definition EinsteinFinalTorsional (a : num B) : result object :=
  match init a class_attrs with
  | (Ok _, self) => Ok self
  | (Raise ex, _) => Raise ex
  end.

Definition outputs : Type := (pyval * pyval * pyval * pyval)%type.

(** The module constant [EPSILON], a Python number. *)
Variable EPSILON : num B.

(** [rs = 2 * G_param * M_param / C_param**2]. *)
Definition schwarzschild_radius (M_param C_param G_param : pyval)
  : result pyval :=
  match py_mul (Num (n_int B 2)) G_param with
  | Raise ex => Raise ex
  | Ok g2 =>
      match py_mul g2 M_param with
      | Raise ex => Raise ex
      | Ok gm =>
          match py_pow C_param 2 with
          | Raise ex => Raise ex
          | Ok c2 => py_truediv gm c2
          end
      end
  end.

(** [get_metric(self, r, M_param, C_param, G_param)]. *)
Definition get_metric (r M_param C_param G_param : pyval) : method outputs :=
  (* rs = 2 * G_param * M_param / C_param**2 *)
  rs <~ eval (schwarzschild_radius M_param C_param G_param) ;;
  (* m = 1 - rs/r + self.alpha * (rs/r)**4 *)
  x <~ eval (py_truediv rs r) ;;
  u <~ eval (py_sub (Num (n_int B 1)) x) ;;
  a <~ getattr_alpha ;;
  x' <~ eval (py_truediv rs r) ;;
  p <~ eval (py_pow x' 4) ;;
  v <~ eval (py_mul (Tens a) p) ;;
  m <~ eval (py_add u v) ;;
  (* return -m, 1/(m + EPSILON), r**2, torch.zeros_like(r) *)
  d <~ eval (py_add m (Num EPSILON)) ;;
  inv <~ eval (py_truediv (Num (n_int B 1)) d) ;;
  sq <~ eval (py_pow r 2) ;;
  z <~ eval (torch_zeros_like r) ;;
  ret (py_neg m, inv, sq, z).

(** Vocabulary of the statements. *)

Definition pshape (v : pyval) : list nat :=
  match v with
  | Num _ => []
  | Tens t => shape t
  end.

Definition is_num (v : pyval) : bool :=
  match v with
  | Num _ => true
  | Tens _ => false
  end.

(** The entry a tensor operation reads in [v] at a reversed index. *)
Definition aget (v : pyval) (ridx : list nat) : elem B :=
  match v with
  | Num x =>
      match wrap B x with
      | Ok e => e
      | Raise _ => e_nan B
      end
  | Tens t => get_rev t ridx
  end.

(** The same with the index in torch order. *)
Definition at_ (v : pyval) (idx : list nat) : elem B := aget v (rev idx).

Definition out_shapes (o : outputs)
  : list nat * list nat * list nat * list nat :=
  match o with
  | (c0, c1, c2, c3) => (pshape c0, pshape c1, pshape c2, pshape c3)
  end.

(** The metric function of the method at one entry, from [rs] and [r]. *)
Definition m_entry (one a rs r : elem B) : elem B :=
  e_add B (e_sub B one (e_div B rs r))
        (e_mul B a (e_pow B (e_div B rs r) 4)).

(** What the method needs, beyond a value of [rs], to return on a tensor
    [r]: [rs], [1] and [EPSILON] can enter a tensor operation, and the sizes
    of [rs] and [r] broadcast. *)
Definition can_finish (rs : pyval) (t : tensor) (w1 we : elem B)
           (S : list nat) : Prop :=
  (exists trs, as_tensor rs = Ok trs) /\
  wrap B (n_int B 1) = Ok w1 /\
  wrap B EPSILON = Ok we /\
  bc_rev (rev (pshape rs)) (rev (shape t)) = Some S.

End Class.

(** The size all operands broadcast to, in the order the method combines
    them. *)
Definition broadcast_sizes (sG sM sC sr : list nat) : option (list nat) :=
  match broadcast_shapes sG sM with
  | None => None
  | Some s1 =>
      match broadcast_shapes s1 sC with
      | None => None
      | Some s2 => broadcast_shapes s2 sr
      end
  end.


(** What the statements about a zero [C_param] need of Python numbers: the
    square of zero is zero, and a division by zero raises. *)
Record python_zero (B : backend) : Prop := mkPythonZero {
  pow_zero : forall c c2, n_is_zero B c = true -> n_pow B c 2 = Ok c2 ->
                          n_is_zero B c2 = true;
  truediv_zero : forall x y, n_is_zero B y = true ->
                             exists ex, n_truediv B x y = Raise ex
}.

End Generic.

(** ** Binary64 arithmetic

    The arithmetic left open above, filled in with IEEE-754 binary64: Python
    floats, and tensors of dtype [torch.float64].  Every operation is
    correctly rounded to nearest, ties to even; a power with a literal
    exponent is the exact power rounded once. *)

Module IEEE.

Import SpecFloat.

Definition prec : Z := 53.
Definition emax : Z := 1024.

Definition float : Type := spec_float.

Definition fadd : float -> float -> float := SFadd prec emax.
Definition fsub : float -> float -> float := SFsub prec emax.
Definition fmul : float -> float -> float := SFmul prec emax.
Definition fdiv : float -> float -> float := SFdiv prec emax.
Definition fneg : float -> float := SFopp.

(** [float(z)] for a Python integer [z]. *)
Definition of_int (z : Z) : float := binary_normalize prec emax z 0 false.

(** The float [2 ** k]. *)
Definition pow2 (k : Z) : float := binary_normalize prec emax 1 k false.

Definition is_zero (x : float) : bool :=
  match x with
  | S754_zero _ => true
  | _ => false
  end.

Definition finite (x : float) : bool :=
  match x with
  | S754_zero _ | S754_finite _ _ _ => true
  | _ => false
  end.

Definition is_inf (x : float) : bool :=
  match x with
  | S754_infinity _ => true
  | _ => false
  end.

Definition is_nan (x : float) : bool :=
  match x with
  | S754_nan => true
  | _ => false
  end.

(** The sign of [x ** n]. *)
Definition pow_sign (s : bool) (n : nat) : bool := andb s (Nat.odd n).

(** [x ** n] for a literal [n]. *)
Definition fpow (x : float) (n : nat) : float :=
  match n with
  | O => of_int 1
  | S _ =>
      match x with
      | S754_nan => S754_nan
      | S754_zero s => S754_zero (pow_sign s n)
      | S754_infinity s => S754_infinity (pow_sign s n)
      | S754_finite s m e =>
          binary_round prec emax (pow_sign s n) (Pos.pow m (Pos.of_nat n))
                       (e * Z.of_nat n)
      end
  end.

(** Python's [x / y] on floats. *)
Definition py_float_truediv (x y : float) : result float :=
  if is_zero y then Raise ZeroDivisionError else Ok (fdiv x y).

(** Python's [x ** n] on a float: a finite base whose power overflows
    raises. *)
Definition py_float_pow (x : float) (n : nat) : result float :=
  if andb (finite x) (is_inf (fpow x n)) then Raise OverflowError
  else Ok (fpow x n).

Definition sign_of (s : bool) : ascii := if s then "-"%char else "+"%char.

(** [|x| * 100] for the finite float of mantissa [m] and exponent [e]. *)
Definition exact_hundredths (m : positive) (e : Z) : Q :=
  match e with
  | Zneg k => (Zpos m * 100) # (Pos.pow 2 k)
  | _ => (Zpos m * 100 * 2 ^ e) # 1
  end.

(** [|x| * 100] rounded to the nearest integer, ties to even: the number
    whose digits [format(x, '.2f')] writes. *)
Definition float_hundredths (x : float) : Z :=
  match x with
  | S754_finite _ m e => round_half_even (exact_hundredths m e)
  | _ => 0
  end.

(** [format(x, '+.2f')] on a float: the sign is the sign bit, also that of
    [-0.0]. *)
Definition format_plus_2f (x : float) : string :=
  match x with
  | S754_zero s | S754_finite s _ _ =>
      let n := float_hundredths x in
      String (sign_of s) (decimal (n / 100) ++ "." ++ two_digits (n mod 100))
  | S754_infinity s => String (sign_of s) "inf"
  | S754_nan => "+nan"
  end%string.

Definition binary64 : Generic.backend :=
  Generic.mkBackend float float
    of_int
    (fun x y => Ok (fadd x y))
    (fun x y => Ok (fsub x y))
    (fun x y => Ok (fmul x y))
    py_float_truediv
    py_float_pow
    fneg
    is_zero
    format_plus_2f
    (fun x => Ok x)
    (fun x => Ok x)
    fadd fsub fmul fdiv fpow fneg
    (fun _ => S754_zero false)
    is_zero
    finite
    S754_nan.

Definition tensor : Type := Generic.tensor binary64.
Definition pyval : Type := Generic.pyval binary64.
Definition object : Type := Generic.object binary64.

(** [torch.tensor(l, dtype=torch.float64)] for a list. *)
Definition vector (l : list float) : tensor :=
  Generic.mkT binary64 [length l] l.

(** A Python float as argument. *)
Definition pyfloat (x : float) : pyval := Generic.Num binary64 x.

(** The instance [EinsteinFinalTorsional(a)]. *)
Definition instance (a : float) : object :=
  match Generic.EinsteinFinalTorsional binary64 a with
  | Ok self => self
  | Raise _ => Generic.class_attrs binary64
  end.

Definition get_metric (EPSILON : float) (r M C G : pyval)
  : Generic.method binary64 (Generic.outputs binary64) :=
  Generic.get_metric binary64 EPSILON r M C G.

(** The floats [0.0], [-0.0], [1.0], [2.0] and a value of [EPSILON],
    [2 ** -20] (about [9.5e-7]). *)
Definition f0 : float := S754_zero false.
Definition fm0 : float := S754_zero true.
Definition f1 : float := of_int 1.
Definition f2 : float := of_int 2.
Definition eps : float := pow2 (-20).

(** The floats [1e-200], [1e200] and [1e-100]. *)
Definition f1em200 : float := S754_finite false 6894565328877484 (-717).
Definition f1e200 : float := S754_finite false 5883593420661338 612.

(** The floats [0.5], [-0.375], [-0.001] (the nearest float) and
    [0.5 + 2 ** -21]. *)
Definition half : float := pow2 (-1).
Definition fm0375 : float := S754_finite true 3 (-3).
Definition fm0001 : float := S754_finite true 4611686018427388 (-62).

(** [torch.tensor([[1., 2.], [4., 8.]])], [torch.tensor([1., 2.])],
    [torch.tensor([1., 2., 3.])], [torch.tensor([0., 1.])] and
    [torch.tensor(4.)], of dtype [torch.float64]. *)
Definition r_grid : tensor :=
  Generic.mkT binary64 [2; 2] [f1; f2; of_int 4; of_int 8].
Definition m_pair : tensor := vector [f1; f2].
Definition m_triple : tensor := vector [f1; f2; of_int 3].

(** The buffer of a component that is a tensor. *)
Definition entries_of (v : pyval) : list float :=
  match v with
  | Generic.Num _ _ => []
  | Generic.Tens _ t => Generic.data binary64 t
  end.

(** The buffers of the four components of a call that returned. *)
Definition components (o : result (Generic.outputs binary64))
  : option (list float * list float * list float * list float) :=
  match o with
  | Ok (c0, c1, c2, c3) =>
      Some (entries_of c0, entries_of c1, entries_of c2, entries_of c3)
  | Raise _ => None
  end.

(** The sizes of the four components of a call that returned. *)
Definition sizes (o : result (Generic.outputs binary64))
  : option (list nat * list nat * list nat * list nat) :=
  match o with
  | Ok v => Some (Generic.out_shapes binary64 v)
  | Raise _ => None
  end.

(** Components 0 and 1 of a call that returned, as buffers. *)
Definition component0 (o : result (Generic.outputs binary64))
  : option (list float) :=
  option_map (fun c => fst (fst (fst c))) (components o).

Definition component1 (o : result (Generic.outputs binary64))
  : option (list float) :=
  option_map (fun c => snd (fst (fst c))) (components o).

(** Whether a call returned, and the 4-tuple it returned. *)
Definition returns (o : result (Generic.outputs binary64)) : bool :=
  match o with
  | Ok _ => true
  | Raise _ => false
  end.

Definition returned (o : result (Generic.outputs binary64))
  : Generic.outputs binary64 :=
  match o with
  | Ok v => v
  | Raise _ => (pyfloat f0, pyfloat f0, pyfloat f0, pyfloat f0)
  end.

(** The sign bit of a float, set for [-0.0]. *)
Definition sign_bit (x : float) : bool :=
  match x with
  | S754_zero s | S754_infinity s | S754_finite s _ _ => s
  | S754_nan => false
  end.

(** The exact absolute value of a finite float. *)
Definition magnitude (x : float) : Q :=
  match x with
  | S754_finite _ m e =>
      match e with
      | Zneg k => Zpos m # (Pos.pow 2 k)
      | _ => (Zpos m * 2 ^ e) # 1
      end
  | _ => 0
  end.


(** [n] is the integer nearest to [q], the even one of the two when [q] is
    half-way. *)
Definition nearest_even (q : Q) (n : Z) : Prop :=
  (Qabs (q - inject_Z n) <= 1 # 2)%Q /\
  ((Qabs (q - inject_Z n) == 1 # 2)%Q -> Z.even n = true).

End IEEE.

(** * Properties *)

(** ** Index arithmetic *)

Lemma numel_app (s1 s2 : list nat) : numel (s1 ++ s2) = numel s1 * numel s2.
Proof.
  induction s1 as [|d s1 IH]; simpl.
  - lia.
  - rewrite IH. lia.
Qed.

Lemma numel_rev (s : list nat) : numel (rev s) = numel s.
Proof.
  induction s as [|d s IH]; simpl; [reflexivity|].
  rewrite numel_app, IH. simpl. lia.
Qed.



Lemma offset_lt (s : list nat) :
  forall S idx, bto s S -> Forall2 lt idx S -> offset_rev s idx < numel s.
Proof.
  induction s as [|d s IH]; intros S idx Hb Hr; simpl.
  - lia.
  - destruct S as [|D S]; [contradiction|].
    destruct Hb as [Hd Hb]. inversion Hr as [|i D' idx' S' Hi Hr']; subst.
    specialize (IH _ _ Hb Hr').
    destruct (Nat.eqb_spec d 1) as [->|Hne]; [lia|].
    destruct Hd as [Hd|Hd]; [contradiction|]. subst D. nia.
Qed.

Lemma offset_project (sa : list nat) :
  forall sc S idx,
    bto sa sc -> bto sc S -> Forall2 lt idx S ->
    offset_rev sa (unravel_rev sc (offset_rev sc idx)) = offset_rev sa idx.
Proof.
  induction sa as [|a sa IH]; intros sc S idx Hac HcS Hr.
  - reflexivity.
  - destruct sc as [|c sc]; [contradiction|].
    destruct S as [|D S]; [contradiction|].
    destruct Hac as [Ha Hac]. destruct HcS as [Hc HcS].
    inversion Hr as [|i D' idx' S' Hi Hr']; subst.
    cbn [offset_rev unravel_rev].
    pose proof (offset_lt _ _ _ HcS Hr') as Hlt.
    destruct (Nat.eqb_spec c 1) as [->|Hc1].
    + rewrite Nat.div_1_r, Nat.add_0_l, Nat.mul_1_l.
      rewrite (IH _ _ _ Hac HcS Hr').
      destruct Ha as [->| ->]; reflexivity.
    + destruct Hc as [Hc|Hc]; [contradiction|]. subst D.
      assert (Hdiv : (i + c * offset_rev sc idx') / c = offset_rev sc idx').
      { rewrite Nat.mul_comm, Nat.div_add by lia.
        rewrite Nat.div_small by assumption. reflexivity. }
      assert (Hmod : (i + c * offset_rev sc idx') mod c = i).
      { rewrite Nat.mul_comm, Nat.Div0.mod_add.
        apply Nat.mod_small; assumption. }
      rewrite Hdiv, Hmod, (IH _ _ _ Hac HcS Hr').
      destruct Ha as [->| ->]; [reflexivity|].
      destruct (Nat.eqb_spec c 1); [contradiction|reflexivity].
Qed.

(** ** Broadcasting of shapes *)

Lemma bto_refl (s : list nat) : bto s s.
Proof. induction s; simpl; auto. Qed.

Lemma bto_trans (a : list nat) :
  forall b c, bto a b -> bto b c -> bto a c.
Proof.
  induction a as [|x a IH]; intros b c Hab Hbc; simpl; [exact I|].
  destruct b as [|y b]; [contradiction|].
  destruct c as [|z c]; [contradiction|].
  destruct Hab as [Hx Hab]. destruct Hbc as [Hy Hbc].
  split; [|exact (IH _ _ Hab Hbc)].
  destruct Hx as [-> | ->]; auto.
Qed.

Lemma bc_dim_sound (a b d : nat) :
  bc_dim a b = Some d -> (a = 1 \/ a = d) /\ (b = 1 \/ b = d).
Proof.
  unfold bc_dim.
  destruct (Nat.eqb_spec a b); [intros [= <-]; subst; auto|].
  destruct (Nat.eqb_spec a 1); [intros [= <-]; auto|].
  destruct (Nat.eqb_spec b 1); [intros [= <-]; auto|discriminate].
Qed.

Lemma bc_rev_bto (a : list nat) :
  forall b c, bc_rev a b = Some c -> bto a c /\ bto b c.
Proof.
  induction a as [|x a IH]; intros b c H; simpl in H.
  - injection H as <-. split; [exact I|apply bto_refl].
  - destruct b as [|y b].
    + injection H as <-. split; [apply bto_refl|exact I].
    + destruct (bc_dim x y) as [d|] eqn:Hd; [|discriminate].
      destruct (bc_rev a b) as [s|] eqn:Hs; [|discriminate].
      injection H as <-.
      destruct (bc_dim_sound _ _ _ Hd) as [Hx Hy].
      destruct (IH _ _ Hs) as [Ha Hb]. simpl. auto.
Qed.

Lemma bc_rev_nil_r (s : list nat) : bc_rev s [] = Some s.
Proof. destruct s; reflexivity. Qed.

Lemma bc_dim_refl (d : nat) : bc_dim d d = Some d.
Proof. unfold bc_dim. rewrite Nat.eqb_refl. reflexivity. Qed.

Lemma bc_rev_refl (s : list nat) : bc_rev s s = Some s.
Proof.
  induction s as [|d s IH]; simpl; [reflexivity|].
  rewrite bc_dim_refl, IH. reflexivity.
Qed.


Lemma broadcast_shapes_rev (s1 s2 s : list nat) :
  broadcast_shapes s1 s2 = Some s -> bc_rev (rev s1) (rev s2) = Some (rev s).
Proof.
  unfold broadcast_shapes.
  destruct (bc_rev (rev s1) (rev s2)) as [c|]; simpl; [|discriminate].
  intros [= <-]. rewrite rev_involutive. reflexivity.
Qed.

Lemma Forall2_lt_rev (idx s : list nat) :
  Forall2 lt idx s -> Forall2 lt (rev idx) (rev s).
Proof.
  induction 1 as [|i d idx s Hi H IH]; simpl; [constructor|].
  apply Forall2_app; [assumption|]. constructor; [assumption|constructor].
Qed.

(** ** Element-wise operations *)

Lemma nth_map_seq (A : Type) (g : nat -> A) (d : A) (n k : nat) :
  k < n -> nth k (map g (seq 0 n)) d = g k.
Proof.
  intros Hk.
  rewrite (nth_indep _ d (g 0)) by (rewrite length_map, length_seq; exact Hk).
  rewrite (map_nth g (seq 0 n) 0 k), seq_nth by exact Hk. reflexivity.
Qed.

Lemma map2_spec (f : xnum -> xnum -> xnum) (a b : tensor) (s : list nat) :
  bc_rev (rev (shape a)) (rev (shape b)) = Some s ->
  exists c,
    map2 f a b = Some c /\ shape c = rev s /\ wf c /\
    forall S idx, bto s S -> Forall2 lt idx S ->
                  get_rev c idx = f (get_rev a idx) (get_rev b idx).
Proof.
  intros Hs. unfold map2. rewrite Hs.
  eexists. split; [reflexivity|]. split; [reflexivity|]. split.
  - unfold wf. simpl. rewrite length_map, length_seq, numel_rev. reflexivity.
  - intros S idx HS Hr. destruct (bc_rev_bto _ _ _ Hs) as [Ha Hb].
    unfold get_rev at 1. simpl. rewrite rev_involutive.
    rewrite nth_map_seq by (exact (offset_lt _ _ _ HS Hr)).
    cbv zeta. unfold get_rev.
    rewrite (offset_project _ _ _ _ Ha HS Hr), (offset_project _ _ _ _ Hb HS Hr).
    reflexivity.
Qed.

Lemma get_rev_map1 (f : xnum -> xnum) (t : tensor) (idx : list nat) :
  f NaN = NaN -> get_rev (map1 f t) idx = f (get_rev t idx).
Proof.
  intros Hf. unfold get_rev, map1. simpl.
  rewrite <- Hf at 1. apply map_nth.
Qed.

Lemma wf_map1 (f : xnum -> xnum) (t : tensor) : wf t -> wf (map1 f t).
Proof. unfold wf, map1. simpl. rewrite length_map. auto. Qed.



(** An entry read in range inherits what holds of all entries. *)
Lemma entries_pget (p : xnum -> bool) (v : pyval) (S idx : list nat) :
  wfv v -> entries p v = true ->
  bto (rev (pshape v)) S -> Forall2 lt idx S ->
  p (pget v idx) = true.
Proof.
  destruct v as [x|t]; simpl; intros Hwf Hp Hb Hr; [exact Hp|].
  rewrite forallb_forall in Hp. apply Hp. unfold get_rev.
  apply nth_In. rewrite Hwf, <- numel_rev. exact (offset_lt _ _ _ Hb Hr).
Qed.



(** ** Operators on Python values *)

Lemma pget_as_tensor (v : pyval) (idx : list nat) :
  get_rev (as_tensor v) idx = pget v idx.
Proof. destruct v; reflexivity. Qed.

Lemma shape_as_tensor (v : pyval) : shape (as_tensor v) = pshape v.
Proof. destruct v; reflexivity. Qed.

Lemma tensor_op_spec (f : xnum -> xnum -> xnum) (a b : pyval) (s : list nat) :
  bc_rev (rev (pshape a)) (rev (pshape b)) = Some s ->
  exists c,
    tensor_op f a b = Ok (Tens c) /\ shape c = rev s /\ wf c /\
    forall S idx, bto s S -> Forall2 lt idx S ->
                  get_rev c idx = f (pget a idx) (pget b idx).
Proof.
  intros Hs. rewrite <- (shape_as_tensor a), <- (shape_as_tensor b) in Hs.
  destruct (map2_spec f _ _ _ Hs) as (c & E & Hsh & Hwf & Hg).
  exists c. unfold tensor_op. rewrite E. repeat split; try assumption.
  intros S idx HS Hr. rewrite (Hg S idx HS Hr), !pget_as_tensor. reflexivity.
Qed.

Lemma tensor_op_result (f : xnum -> xnum -> xnum) (a b : pyval) (s : list nat) :
  andb (is_num a) (is_num b) = false ->
  bc_rev (rev (pshape a)) (rev (pshape b)) = Some s ->
  exists c, tensor_op f a b = Ok c /\ op_result f a b c s.
Proof.
  intros Hn Hs.
  destruct (tensor_op_spec f a b s Hs) as (c & E & Hsh & Hwf & Hg).
  exists (Tens c). split; [exact E|]. unfold op_result. simpl.
  rewrite Hsh, rev_involutive, Hn. auto.
Qed.

Lemma py_arith_spec (f : xnum -> xnum -> xnum) (a b : pyval) (s : list nat) :
  bc_rev (rev (pshape a)) (rev (pshape b)) = Some s ->
  exists c, py_arith f a b = Ok c /\ op_result f a b c s.
Proof.
  intros Hs. destruct a as [x|ta].
  - destruct b as [y|tb].
    + exists (Num (f x y)). simpl in Hs. injection Hs as <-.
      split; [reflexivity|]. unfold op_result. simpl. auto.
    + apply tensor_op_result; [reflexivity|exact Hs].
  - apply tensor_op_result; [reflexivity|exact Hs].
Qed.

Lemma py_truediv_spec (a b : pyval) (s : list nat) :
  bc_rev (rev (pshape a)) (rev (pshape b)) = Some s ->
  (forall x y, a = Num x -> b = Num y -> num_is_zero y = false) ->
  exists c, py_truediv a b = Ok c /\ op_result xdiv a b c s.
Proof.
  intros Hs Hz. destruct a as [x|ta].
  - destruct b as [y|tb].
    + exists (Num (xdiv x y)). simpl in Hs. injection Hs as <-.
      simpl. rewrite (Hz x y eq_refl eq_refl).
      split; [reflexivity|]. unfold op_result. simpl. auto.
    + apply tensor_op_result; [reflexivity|exact Hs].
  - apply tensor_op_result; [reflexivity|exact Hs].
Qed.

Lemma xpow_nan (n : nat) : xpow NaN (S n) = NaN.
Proof. reflexivity. Qed.

Lemma pget_py_pow (v : pyval) (n : nat) (idx : list nat) :
  pget (py_pow v (S n)) idx = xpow (pget v idx) (S n).
Proof.
  destruct v as [x|t]; [reflexivity|].
  exact (get_rev_map1 (fun x => xpow x (S n)) t idx (xpow_nan n)).
Qed.

Lemma pshape_py_pow (v : pyval) (n : nat) : pshape (py_pow v n) = pshape v.
Proof. destruct v; reflexivity. Qed.

Lemma is_num_py_pow (v : pyval) (n : nat) : is_num (py_pow v n) = is_num v.
Proof. destruct v; reflexivity. Qed.

(** Running a method body step by step. *)

Lemma bind_eval (A B : Type) (r : result A) (k : A -> method B)
      (self : object) (v : A) :
  r = Ok v -> bind (eval r) k self = k v self.
Proof. intros ->. reflexivity. Qed.

Lemma bind_getattr_alpha (B : Type) (k : tensor -> method B)
      (self : object) (a : tensor) :
  alpha self = Some a -> bind getattr_alpha k self = k a self.
Proof. intros E. unfold bind, getattr_alpha. rewrite E. reflexivity. Qed.

(** ** Arithmetic on extended rationals *)

Lemma is_zero_true (q : Qc) : is_zero q = true <-> q = zero.
Proof.
  unfold is_zero, sgn. rewrite Qceq_alt.
  destruct (q ?= zero)%Qc; split; intros H; congruence.
Qed.

Lemma is_zero_false (q : Qc) : is_zero q = false <-> q <> zero.
Proof.
  rewrite <- is_zero_true. destruct (is_zero q); split; congruence.
Qed.

Lemma xpow_fin (q : Qc) (n : nat) : xpow (Fin q) n = Fin (q ^ n)%Qc.
Proof.
  induction n as [|n IH]; simpl; [reflexivity|]. rewrite IH. reflexivity.
Qed.

Lemma Qc_sq_zero (q : Qc) : (q ^ 2)%Qc = zero -> q = zero.
Proof.
  simpl. intros H. rewrite Qcmult_1_r in H.
  destruct (Qcmult_integral _ _ H); assumption.
Qed.

Lemma xpow2_inf (x : xnum) : finite x = false -> num_is_zero (xpow x 2) = false.
Proof. destruct x; simpl; [discriminate| | |]; reflexivity. Qed.

Lemma num_is_zero_sq (x : xnum) :
  num_is_zero x = false -> num_is_zero (xpow x 2) = false.
Proof.
  destruct x as [q| | |]; try (intros _; apply xpow2_inf; reflexivity).
  rewrite xpow_fin. simpl. rewrite !is_zero_false.
  intros Hq H. exact (Hq (Qc_sq_zero _ H)).
Qed.

(** ** What [get_metric] computes *)

Lemma bto_bc_rev_l (s : list nat) :
  forall S, bto s S -> bc_rev S s = Some S.
Proof.
  induction s as [|d s IH]; intros S H; [apply bc_rev_nil_r|].
  destruct S as [|D S]; [contradiction|]. destruct H as [Hd H]. simpl.
  rewrite (IH _ H).
  assert (Hbd : bc_dim D d = Some D).
  { unfold bc_dim. destruct (Nat.eqb_spec D d); [reflexivity|].
    destruct Hd as [-> | ->]; [|contradiction].
    destruct (Nat.eqb_spec D 1); [contradiction|reflexivity]. }
  rewrite Hbd. reflexivity.
Qed.

Section GetMetricSem.

Variable EPSILON : Qc.

(** The result of a call on tensor [t] by an instance whose [alpha] holds
    [a]: the call returns, the instance is untouched, components 0 and 1
    have the broadcast size [S] and hold the method's formulas at every
    index, components 2 and 3 are [t ** 2] and zeros. *)
Lemma get_metric_sem (a : xnum) (t : tensor) (M C G : pyval)
      (s1 s2 S : list nat) (self : object) :
  alpha self = Some (scalar_tensor a) ->
  bc_rev (rev (pshape G)) (rev (pshape M)) = Some s1 ->
  bc_rev s1 (rev (pshape C)) = Some s2 ->
  bc_rev s2 (rev (shape t)) = Some S ->
  python_zero_division G M C = false ->
  exists c0 c1,
    get_metric EPSILON (Tens t) M C G self
    = (Ok (Tens c0, Tens c1, Tens (map1 (fun x => xpow x 2) t),
           Tens (zeros_like t)), self) /\
    shape c0 = rev S /\ shape c1 = rev S /\ wf c0 /\ wf c1 /\
    forall idx, Forall2 lt idx S ->
      let m := xm a (xrs (pget G idx) (pget M idx) (pget C idx))
                    (get_rev t idx) in
      get_rev c0 idx = xneg m /\
      get_rev c1 idx = xdiv (Fin one) (xadd m (Fin EPSILON)).
Proof.
  intros Ha H1 H2 H3 Hz.
  destruct (bc_rev_bto _ _ _ H1) as [B1g B1m].
  destruct (bc_rev_bto _ _ _ H2) as [B2s B2c].
  destruct (bc_rev_bto _ _ _ H3) as [B3s B3t].
  (* 2 * G_param *)
  destruct (py_arith_spec xmul (Num (Fin two)) G (rev (pshape G)) eq_refl)
    as (g2 & E1 & Sg2 & _ & Ng2 & Pg2).
  (* ... * M_param *)
  destruct (py_arith_spec xmul g2 M s1) as (gm & E2 & Sgm & _ & Ngm & Pgm);
    [rewrite Sg2; exact H1|].
  (* ... / C_param**2 *)
  destruct (py_truediv_spec gm (py_pow C 2) s2) as (rs & E3 & Srs & _ & _ & Prs).
  { rewrite Sgm, pshape_py_pow. exact H2. }
  { intros x y -> Ey. simpl in Ngm. symmetry in Ngm.
    apply andb_true_iff in Ngm. destruct Ngm as [Ng Nm].
    rewrite Ng2 in Ng. simpl in Ng.
    destruct G as [g|]; [|discriminate]. destruct M as [m|]; [|discriminate].
    destruct C as [c|]; [|discriminate]. simpl in Ey. injection Ey as <-.
    apply num_is_zero_sq. exact Hz. }
  (* rs / r *)
  destruct (tensor_op_spec xdiv rs (Tens t) S) as (x & E4 & Sx & _ & Px);
    [rewrite Srs; exact H3|].
  (* 1 - rs/r *)
  destruct (tensor_op_spec xsub (Num (Fin one)) (Tens x) S)
    as (u & E5 & Su & _ & Pu);
    [simpl; rewrite Sx, rev_involutive; reflexivity|].
  (* self.alpha * (rs/r)**4 *)
  destruct (tensor_op_spec xmul (Tens (scalar_tensor a)) (py_pow (Tens x) 4) S)
    as (v & E6 & Sv & _ & Pv);
    [simpl; rewrite Sx, rev_involutive; reflexivity|].
  (* ... + ... *)
  destruct (tensor_op_spec xadd (Tens u) (Tens v) S) as (m & E7 & Sm & Wm & Pm);
    [simpl; rewrite Su, Sv, rev_involutive; apply bc_rev_refl|].
  (* m + EPSILON *)
  destruct (tensor_op_spec xadd (Tens m) (Num (Fin EPSILON)) S)
    as (d & E8 & Sd & _ & Pd);
    [simpl; rewrite Sm, rev_involutive; apply bc_rev_nil_r|].
  (* 1 / (m + EPSILON) *)
  destruct (tensor_op_spec xdiv (Num (Fin one)) (Tens d) S)
    as (inv & E9 & Sinv & Winv & Pinv);
    [simpl; rewrite Sd, rev_involutive; reflexivity|].
  exists (map1 xneg m), inv.
  split; [|split; [exact Sm|split; [exact Sinv|split;
             [exact (wf_map1 xneg m Wm)|split; [exact Winv|]]]]].
  - unfold get_metric.
    rewrite (bind_eval _ _ _ _ _ g2 E1).
    rewrite (bind_eval _ _ _ _ _ gm E2).
    rewrite (bind_eval _ _ _ _ _ rs E3).
    assert (E4' : py_truediv rs (Tens t) = Ok (Tens x))
      by (destruct rs; exact E4).
    rewrite (bind_eval _ _ _ _ _ (Tens x) E4').
    rewrite (bind_eval _ _ _ _ _ (Tens u) E5).
    rewrite (bind_getattr_alpha _ _ _ _ Ha).
    rewrite (bind_eval _ _ _ _ _ (Tens x) E4').
    rewrite (bind_eval _ _ _ _ _ (Tens v) E6).
    rewrite (bind_eval _ _ _ _ _ (Tens m) E7).
    rewrite (bind_eval _ _ _ _ _ (Tens d) E8).
    rewrite (bind_eval _ _ _ _ _ (Tens inv) E9).
    reflexivity.
  - intros idx Hr. cbv zeta.
    pose proof (bto_refl S) as BS.
    assert (Hm : get_rev m idx
                 = xm a (xrs (pget G idx) (pget M idx) (pget C idx))
                        (get_rev t idx)).
    { rewrite (Pm S idx BS Hr). simpl pget.
      rewrite (Pu S idx BS Hr), (Pv S idx BS Hr).
      change (pget (Tens (scalar_tensor a)) idx) with a.
      rewrite (pget_py_pow (Tens x) 3 idx). simpl pget.
      rewrite (Px S idx BS Hr). simpl pget.
      rewrite (Prs S idx B3s Hr), (pget_py_pow C 1 idx).
      rewrite (Pgm S idx (bto_trans _ _ _ B2s B3s) Hr).
      rewrite (Pg2 S idx (bto_trans _ _ _ B1g (bto_trans _ _ _ B2s B3s)) Hr).
      reflexivity. }
    split.
    + rewrite (get_rev_map1 xneg m idx eq_refl), Hm. reflexivity.
    + rewrite (Pinv S idx BS Hr). simpl pget.
      rewrite (Pd S idx BS Hr). simpl pget. rewrite Hm. reflexivity.
Qed.

End GetMetricSem.

(** ** From extended to rational arithmetic *)

Lemma xrs_fin (g m c : Qc) :
  c <> zero -> xrs (Fin g) (Fin m) (Fin c) = Fin (rs_of g m c).
Proof.
  intros Hc. unfold xrs, rs_of. rewrite xpow_fin. simpl xmul. unfold xdiv.
  assert (Hz : is_zero (c ^ 2)%Qc = false).
  { apply is_zero_false. intros H. exact (Hc (Qc_sq_zero _ H)). }
  rewrite Hz. reflexivity.
Qed.

Lemma xm_fin (a rs r : Qc) :
  r <> zero -> xm (Fin a) (Fin rs) (Fin r) = Fin (m_of a rs r).
Proof.
  intros Hr. unfold xm, m_of. apply is_zero_false in Hr.
  unfold xdiv. rewrite Hr, xpow_fin. reflexivity.
Qed.

Lemma finite_nonzero_fin (x : xnum) :
  finite_nonzero x = true -> x = Fin (qval x) /\ qval x <> zero.
Proof.
  destruct x as [q| | |]; simpl; try discriminate.
  intros H. split; [reflexivity|]. apply is_zero_false.
  destruct (is_zero q); [discriminate|reflexivity].
Qed.

Lemma finite_fin (x : xnum) : finite x = true -> x = Fin (qval x).
Proof. destruct x; simpl; try discriminate. reflexivity. Qed.

Lemma finite_nonzero_not_zero (x : xnum) :
  finite_nonzero x = true -> num_is_zero x = false.
Proof.
  destruct x as [q| | |]; simpl; try discriminate.
  destruct (is_zero q); [discriminate|reflexivity].
Qed.

(** ** Shapes and indices in torch order *)

Lemma in_range_rev (S idx : list nat) :
  in_range S idx -> Forall2 lt (rev idx) (rev S).
Proof. exact (Forall2_lt_rev idx S). Qed.

Lemma broadcast_all_inv (G M C r : pyval) (S : list nat) :
  broadcast_all G M C r = Some S ->
  exists s1 s2,
    bc_rev (rev (pshape G)) (rev (pshape M)) = Some s1 /\
    bc_rev s1 (rev (pshape C)) = Some s2 /\
    bc_rev s2 (rev (pshape r)) = Some (rev S).
Proof.
  unfold broadcast_all.
  destruct (broadcast_shapes (pshape G) (pshape M)) as [s1|] eqn:E1;
    [|discriminate].
  destruct (broadcast_shapes s1 (pshape C)) as [s2|] eqn:E2; [|discriminate].
  intros E3. exists (rev s1), (rev s2).
  auto using broadcast_shapes_rev.
Qed.

(** Every operand broadcasts to the common size. *)
Lemma broadcast_all_bto (G M C r : pyval) (S : list nat) :
  broadcast_all G M C r = Some S ->
  bto (rev (pshape G)) (rev S) /\ bto (rev (pshape M)) (rev S) /\
  bto (rev (pshape C)) (rev S) /\ bto (rev (pshape r)) (rev S).
Proof.
  intros H. destruct (broadcast_all_inv _ _ _ _ _ H) as (s1 & s2 & H1 & H2 & H3).
  destruct (bc_rev_bto _ _ _ H1) as [B1g B1m].
  destruct (bc_rev_bto _ _ _ H2) as [B2s B2c].
  destruct (bc_rev_bto _ _ _ H3) as [B3s B3r].
  pose proof (bto_trans _ _ _ B2s B3s) as B13.
  repeat split;
    [exact (bto_trans _ _ _ B1g B13)|exact (bto_trans _ _ _ B1m B13)
    |exact (bto_trans _ _ _ B2c B3s)|exact B3r].
Qed.

Lemma python_zero_division_valid (G M C : pyval) :
  entries finite_nonzero C = true -> python_zero_division G M C = false.
Proof.
  intros H. destruct G, M, C; try reflexivity.
  simpl in *. apply finite_nonzero_not_zero. exact H.
Qed.

Lemma alpha_constructed (a : xnum) :
  alpha (EinsteinFinalTorsional a) = Some (scalar_tensor a).
Proof. reflexivity. Qed.

Section GetMetricValues.

Variable EPSILON : Qc.

(** [get_metric_sem] with sizes and indices in torch order. *)
Lemma get_metric_values (a : xnum) (t : tensor) (M C G : pyval)
      (S : list nat) (self : object) :
  alpha self = Some (scalar_tensor a) ->
  broadcast_all G M C (Tens t) = Some S ->
  python_zero_division G M C = false ->
  exists c0 c1,
    get_metric EPSILON (Tens t) M C G self
    = (Ok (Tens c0, Tens c1, Tens (map1 (fun x => xpow x 2) t),
           Tens (zeros_like t)), self) /\
    shape c0 = S /\ shape c1 = S /\ wf c0 /\ wf c1 /\
    forall idx, in_range S idx ->
      get c0 idx = xneg (xm_at a (Tens t) M C G idx) /\
      get c1 idx = xdiv (Fin one) (xadd (xm_at a (Tens t) M C G idx)
                                        (Fin EPSILON)).
Proof.
  intros Ha HS Hz.
  destruct (broadcast_all_inv _ _ _ _ _ HS) as (s1 & s2 & H1 & H2 & H3).
  destruct (get_metric_sem EPSILON a t M C G s1 s2 (rev S) self Ha H1 H2 H3 Hz)
    as (c0 & c1 & E & S0 & S1 & W0 & W1 & P).
  rewrite rev_involutive in S0, S1.
  exists c0, c1. repeat (split; [assumption|]).
  intros idx Hr. exact (P (rev idx) (in_range_rev _ _ Hr)).
Qed.

(** On valid inputs the values are finite and given by the rational
    formulas. *)
Lemma xm_at_valid (a : Qc) (t : tensor) (M C G : pyval) (S idx : list nat) :
  valid_inputs t M C G ->
  broadcast_all G M C (Tens t) = Some S ->
  in_range S idx ->
  xm_at (Fin a) (Tens t) M C G idx = Fin (m_at a (Tens t) M C G idx).
Proof.
  intros [(Wt & WM & WC & WG) (Ft & FM & FC & FG)] HS Hr.
  destruct (broadcast_all_bto _ _ _ _ _ HS) as (BG & BM & BC & Bt).
  apply in_range_rev in Hr.
  unfold xm_at, m_at, rs_at, qat, at_.
  destruct (finite_nonzero_fin _
              (entries_pget finite_nonzero (Tens t) _ _ Wt Ft Bt Hr))
    as [Et Nt].
  destruct (finite_nonzero_fin _
              (entries_pget finite_nonzero C _ _ WC FC BC Hr)) as [EC NC].
  pose proof (finite_fin _ (entries_pget finite M _ _ WM FM BM Hr)) as EM.
  pose proof (finite_fin _ (entries_pget finite G _ _ WG FG BG Hr)) as EG.
  rewrite EG at 1. rewrite EM at 1. rewrite EC at 1. rewrite Et at 1.
  rewrite (xrs_fin _ _ _ NC), (xm_fin _ _ _ Nt). reflexivity.
Qed.

Lemma get_metric_exact (a : Qc) (t : tensor) (M C G : pyval) (S : list nat)
      (self : object) :
  alpha self = Some (scalar_tensor (Fin a)) ->
  valid_inputs t M C G ->
  broadcast_all G M C (Tens t) = Some S ->
  exists c0 c1,
    get_metric EPSILON (Tens t) M C G self
    = (Ok (Tens c0, Tens c1, Tens (map1 (fun x => xpow x 2) t),
           Tens (zeros_like t)), self) /\
    shape c0 = S /\ shape c1 = S /\ wf c0 /\ wf c1 /\
    forall idx, in_range S idx ->
      get c0 idx = Fin (- m_at a (Tens t) M C G idx)%Qc /\
      get c1 idx = xdiv (Fin one)
                        (Fin (m_at a (Tens t) M C G idx + EPSILON)%Qc).
Proof.
  intros Ha Hv HS.
  assert (Hz : python_zero_division G M C = false).
  { apply python_zero_division_valid. apply Hv. }
  destruct (get_metric_values (Fin a) t M C G S self Ha HS Hz)
    as (c0 & c1 & E & S0 & S1 & W0 & W1 & P).
  exists c0, c1. repeat (split; [assumption|]).
  intros idx Hr. destruct (P idx Hr) as [P0 P1].
  rewrite (xm_at_valid a t M C G S idx Hv HS Hr) in P0, P1.
  split; assumption.
Qed.


End GetMetricValues.

(** ** The instance is only read *)

Lemma readonly_ret (A : Type) (a : A) : readonly (ret a).
Proof. intros self. reflexivity. Qed.

Lemma readonly_eval (A : Type) (r : result A) : readonly (eval r).
Proof. intros self. reflexivity. Qed.

Lemma readonly_getattr_alpha : readonly getattr_alpha.
Proof. intros self. unfold getattr_alpha. destruct (alpha self); reflexivity. Qed.

Lemma readonly_bind (A B : Type) (m : method A) (k : A -> method B) :
  readonly m -> (forall a, readonly (k a)) -> readonly (bind m k).
Proof.
  intros Hm Hk self. unfold bind. specialize (Hm self).
  destruct (m self) as [[a|e] self']; simpl in Hm; subst self'.
  - apply Hk.
  - reflexivity.
Qed.

Lemma readonly_get_metric (EPSILON : Qc) (r M C G : pyval) :
  readonly (get_metric EPSILON r M C G).
Proof.
  unfold get_metric.
  repeat (apply readonly_bind;
          [first [apply readonly_eval | apply readonly_getattr_alpha]
          |intros ?]).
  apply readonly_ret.
Qed.

(** A bind that returns ran both of its parts. *)
Lemma bind_ok (A B : Type) (m : method A) (k : A -> method B)
      (self : object) (b : B) :
  fst (bind m k self) = Ok b ->
  exists a self', m self = (Ok a, self') /\ fst (k a self') = Ok b.
Proof.
  unfold bind. destruct (m self) as [[a|e] self']; simpl.
  - intros H. exists a, self'. auto.
  - discriminate.
Qed.

Lemma eval_ok (A : Type) (r : result A) (self self' : object) (a : A) :
  eval r self = (Ok a, self') -> r = Ok a.
Proof. unfold eval. congruence. Qed.


(** ** Purity of [get_metric] *)

Section Purity.

Variable EPSILON : Qc.

(** C5: [get_metric] is deterministic.  Two successive calls on the same
    instance with the same arguments give the same outcome (the same
    4-tuple, or the same exception). *)
Theorem get_metric_deterministic (self : object) (r M C G : pyval) :
  let first := get_metric EPSILON r M C G self in
  let second := get_metric EPSILON r M C G (snd first) in
  fst second = fst first.
Proof.
  cbv zeta. rewrite (readonly_get_metric EPSILON r M C G self). reflexivity.
Qed.

(** C6: a call of [get_metric] leaves the instance as it was, whatever the
    arguments and whether or not it returns: [name], [alpha] and the class
    attributes [sweep] and [cacheable] are those of before the call.  The
    same holds after any sequence of calls, so [alpha] keeps the value the
    constructor gave it. *)
Theorem get_metric_frame :
  (forall self r M C G, snd (get_metric EPSILON r M C G self) = self) /\
  (forall self l, snd (calls EPSILON l self) = self) /\
  (forall a l,
      alpha (snd (calls EPSILON l (EinsteinFinalTorsional a)))
      = Some (scalar_tensor a)).
Proof.
  assert (Hcalls : forall l s, snd (calls EPSILON l s) = s).
  { induction l as [|[[[r M] C] G] l IH]; intros s; simpl; [reflexivity|].
    pose proof (readonly_get_metric EPSILON r M C G s) as H.
    destruct (get_metric EPSILON r M C G s) as [o s1]. simpl in H. subst s1.
    specialize (IH s). destruct (calls EPSILON l s) as [os s2].
    simpl in *. exact IH. }
  split; [|split].
  - intros self r M C G. apply readonly_get_metric.
  - intros self l. apply Hcalls.
  - intros a l. rewrite Hcalls. reflexivity.
Qed.

(** C10: components 2 and 3 depend on [r] only.  Two calls that return,
    on the same [r] but with any two instances (hence any two [alpha]) and
    any two parameter triples, agree on components 2 and 3, which are
    [r ** 2] and [torch.zeros_like(r)]. *)
Theorem last_components_depend_on_r_only
        (self self' : object) (r M C G M' C' G' : pyval) (o o' : outputs) :
  fst (get_metric EPSILON r M C G self) = Ok o ->
  fst (get_metric EPSILON r M' C' G' self') = Ok o' ->
  comp2 o = comp2 o' /\ comp3 o = comp3 o' /\
  comp2 o = py_pow r 2 /\ torch_zeros_like r = Ok (comp3 o).
Proof.
  assert (Hone : forall s M0 C0 G0 o0,
             fst (get_metric EPSILON r M0 C0 G0 s) = Ok o0 ->
             comp2 o0 = py_pow r 2 /\ torch_zeros_like r = Ok (comp3 o0)).
  { intros s M0 C0 G0 o0 H. unfold get_metric in H.
    repeat (apply bind_ok in H; destruct H as (? & ? & ? & H)).
    match goal with
    | E : eval (torch_zeros_like r) _ = _ |- _ => apply eval_ok in E; rewrite E
    end.
    unfold ret in H. simpl in H. injection H as <-. split; reflexivity. }
  intros H H'.
  destruct (Hone _ _ _ _ _ H) as [E2 E3].
  destruct (Hone _ _ _ _ _ H') as [E2' E3'].
  repeat split; try assumption; congruence.
Qed.

End Purity.

(** ** Dependence on the parameters through [rs] *)



Section ThroughRs.

Variable EPSILON : Qc.


End ThroughRs.

(** ** The values of the metric *)


Section Values.

Variable EPSILON : Qc.

Local Open Scope Qc_scope.



(** C8: in exact arithmetic, where [m + EPSILON] is not zero, components
    0 and 1 are finite, component 1 is not zero and
    [component0 + 1/component1 = EPSILON]. *)
Theorem reciprocal_relation (a : Qc) (t : tensor) (M C G : pyval)
        (S : list nat) :
  valid_inputs t M C G ->
  broadcast_all G M C (Tens t) = Some S ->
  exists c0 c1 c2 c3,
    fst (get_metric EPSILON (Tens t) M C G (EinsteinFinalTorsional (Fin a)))
    = Ok (Tens c0, Tens c1, c2, c3) /\
    forall idx, in_range S idx ->
      m_at a (Tens t) M C G idx + EPSILON <> 0 ->
      exists p q,
        get c0 idx = Fin p /\ get c1 idx = Fin q /\ q <> 0 /\
        p + 1 / q = EPSILON /\ p = EPSILON - 1 / q.
Proof.
  intros Hv HS.
  destruct (get_metric_exact EPSILON a t M C G S _
              (alpha_constructed (Fin a)) Hv HS)
    as (c0 & c1 & E & S0 & S1 & W0 & W1 & P).
  exists c0, c1, (Tens (map1 (fun x => xpow x 2) t)), (Tens (zeros_like t)).
  split; [rewrite E; reflexivity|].
  intros idx Hr Hne. destruct (P idx Hr) as [P0 P1].
  set (m := m_at a (Tens t) M C G idx) in *.
  exists (- m), (1 / (m + EPSILON)).
  assert (Hz : is_zero (m + EPSILON) = false) by (apply is_zero_false; exact Hne).
  assert (Hq : 1 / (m + EPSILON) <> 0).
  { intros H. apply Hne.
    assert (H1 : (m + EPSILON) * (1 / (m + EPSILON)) = 1) by (field; exact Hne).
    rewrite H, Qcmult_0_r in H1. discriminate H1. }
  split; [exact P0|]. split.
  - rewrite P1. unfold xdiv. rewrite Hz. reflexivity.
  - split; [exact Hq|].
    split; field; repeat split; try exact Hne; intros H0; discriminate H0.
Qed.

End Values.

(** ** Sizes that broadcast to a common size *)



(** ** Concrete calls *)

Lemma xeqb_eq (x y : xnum) : xeqb x y = true -> x = y.
Proof.
  destruct x as [p| | |], y as [q| | |]; simpl; try discriminate;
    try reflexivity.
  intros H. f_equal. apply Qc_eq_bool_correct. exact H.
Qed.

Import Examples.



(** ** The display name *)

Lemma round_half_even_cases (q : Q) :
  (2 * Z.abs (Qnum q - round_half_even q * Zpos (Qden q)) <= Zpos (Qden q))%Z /\
  (0 <= Qnum q -> 0 <= round_half_even q)%Z.
Proof.
  destruct q as [N D]. unfold round_half_even. simpl Qnum. simpl Qden.
  pose proof (Z.div_mod N (Zpos D) ltac:(discriminate)) as Hdm.
  pose proof (Z.mod_pos_bound N (Zpos D) ltac:(reflexivity)) as Hr.
  split.
  - destruct (Z.compare_spec (2 * (N mod Zpos D)) (Zpos D)) as [He|Hl|Hg];
      [destruct (Z.even (N / Zpos D))| |]; nia.
  - intros HN. pose proof (Z.div_pos N (Zpos D) HN ltac:(reflexivity)).
    destruct (2 * (N mod Zpos D) ?= Zpos D)%Z;
      [destruct (Z.even (N / Zpos D))| |]; lia.
Qed.

Lemma all_digits_uint (d : Decimal.uint) :
  all_digits (NilEmpty.string_of_uint d) = true.
Proof. induction d; simpl; try assumption; reflexivity. Qed.

Lemma decimal_digits (n : Z) :
  all_digits (decimal n) = true /\ decimal n <> EmptyString.
Proof.
  unfold decimal, NilZero.string_of_uint.
  destruct (N.to_uint (Z.to_N n)) eqn:E; split;
    try discriminate; try reflexivity;
    rewrite <- E at 1; exact (all_digits_uint _).
Qed.

(** ** The theorems at sample inputs *)


Lemma valid_r4 : valid_inputs r4 n1 n1 n1.
Proof. repeat split; reflexivity. Defined.



Lemma reciprocal_relation_witness :
  valid_inputs r4 n1 n1 n1 /\
  broadcast_all n1 n1 n1 (Tens r4) = Some [1] /\
  exists c0 c1 c2 c3,
    fst (get_metric eps (Tens r4) n1 n1 n1 (EinsteinFinalTorsional (Fin half)))
    = Ok (Tens c0, Tens c1, c2, c3) /\
    forall idx, in_range [1] idx ->
      (m_at half (Tens r4) n1 n1 n1 idx + eps)%Qc <> 0%Qc ->
      exists p q,
        get c0 idx = Fin p /\ get c1 idx = Fin q /\ q <> 0%Qc /\
        (p + 1 / q)%Qc = eps /\ p = (eps - 1 / q)%Qc.
Proof.
  split; [exact valid_r4|]. split; [reflexivity|].
  exact (reciprocal_relation eps half r4 n1 n1 n1 [1] valid_r4 eq_refl).
Defined.







Lemma last_components_depend_on_r_only_witness :
  fst (get_metric eps (Tens r4) n1 n1 n1 (EinsteinFinalTorsional (Fin half)))
  = Ok out_a /\
  fst (get_metric eps (Tens r4) (Tens pair12) n2 n1
         (EinsteinFinalTorsional (Fin zero)))
  = Ok out_b /\
  comp2 out_a = comp2 out_b /\ comp3 out_a = comp3 out_b /\
  comp2 out_a = py_pow (Tens r4) 2 /\
  torch_zeros_like (Tens r4) = Ok (comp3 out_a).
Proof.
  assert (Ha : fst (get_metric eps (Tens r4) n1 n1 n1
                      (EinsteinFinalTorsional (Fin half))) = Ok out_a)
    by (vm_compute; reflexivity).
  assert (Hb : fst (get_metric eps (Tens r4) (Tens pair12) n2 n1
                      (EinsteinFinalTorsional (Fin zero))) = Ok out_b)
    by (vm_compute; reflexivity).
  split; [exact Ha|]. split; [exact Hb|].
  exact (last_components_depend_on_r_only eps
           (EinsteinFinalTorsional (Fin half))
           (EinsteinFinalTorsional (Fin zero))
           (Tens r4) n1 n1 n1 (Tens pair12) n2 n1 out_a out_b Ha Hb).
Defined.

(** ** The scenario of the specification *)

Lemma data_eqb_eq (l1 : list xnum) :
  forall l2,
    length l1 = length l2 ->
    forallb (fun p => xeqb (fst p) (snd p)) (combine l1 l2) = true ->
    l1 = l2.
Proof.
  induction l1 as [|x l1 IH]; intros [|y l2] Hlen H; simpl in *;
    try discriminate; [reflexivity|].
  apply andb_true_iff in H. destruct H as [Hx H].
  f_equal; [exact (xeqb_eq _ _ Hx)|apply IH; [lia|exact H]].
Qed.

Lemma teqb_eq (a b : tensor) : teqb a b = true -> a = b.
Proof.
  destruct a as [sa da], b as [sb db]. unfold teqb. simpl.
  destruct (list_eq_dec Nat.eq_dec sa sb) as [->|]; [|discriminate].
  simpl. intros H. apply andb_true_iff in H. destruct H as [Hl Hd].
  apply Nat.eqb_eq in Hl. f_equal. exact (data_eqb_eq _ _ Hl Hd).
Qed.

Lemma pyeqb_eq (a b : pyval) : pyeqb a b = true -> a = b.
Proof.
  destruct a as [x|s], b as [y|t]; simpl; try discriminate; intros H.
  - f_equal. exact (xeqb_eq _ _ H).
  - f_equal. exact (teqb_eq _ _ H).
Qed.

Lemma outputs_eqb_eq (a b : outputs) : outputs_eqb a b = true -> a = b.
Proof.
  destruct a as [[[a0 a1] a2] a3], b as [[[b0 b1] b2] b3]. simpl.
  rewrite !andb_true_iff. intros [[H0 H1] [H2 H3]].
  rewrite (pyeqb_eq _ _ H0), (pyeqb_eq _ _ H1), (pyeqb_eq _ _ H2),
    (pyeqb_eq _ _ H3). reflexivity.
Qed.

(** [alpha = 0.5], [M = C = G = 1], [r = 4]: [rs = 2], [m = 0.53125]. *)
Example scenario_alpha_half :
  out_a = (Tens (mkT [1] [q_ (-17) 32]),
           Tens (mkT [1] [xdiv (q_ 1 1) (Fin (Q2Qc (17 # 32) + eps)%Qc)]),
           Tens (mkT [1] [q_ 16 1]),
           Tens (mkT [1] [q_ 0 1])).
Proof. apply outputs_eqb_eq. vm_compute. reflexivity. Qed.

(** A parameter of size [2] against [r] of size [2; 2]: each row of [r]
    meets the whole parameter. *)
Example scenario_broadcast :
  let o := fst (get_metric eps (Tens r22) (Tens pair12) n1 n1
                  (EinsteinFinalTorsional (Fin zero))) in
  out_shapes o = Some ([2; 2], [2; 2], [2; 2], [2; 2]) /\
  comp0 (returned o) = Tens (mkT [2; 2] [q_ 1 1; q_ 1 1; q_ (-1) 2; q_ (-1) 2]).
Proof.
  split; [vm_compute; reflexivity|]. apply pyeqb_eq. vm_compute. reflexivity.
Qed.

(** * Further properties of the class *)

(** ** How a call fails *)

Lemma tensor_op_incompatible (f : xnum -> xnum -> xnum) (a b : pyval) :
  bc_rev (rev (pshape a)) (rev (pshape b)) = None ->
  tensor_op f a b = Raise RuntimeError.
Proof.
  intros H. unfold tensor_op, map2.
  rewrite !shape_as_tensor, H. reflexivity.
Qed.


Lemma py_truediv_incompatible (a b : pyval) :
  bc_rev (rev (pshape a)) (rev (pshape b)) = None ->
  py_truediv a b = Raise RuntimeError.
Proof.
  intros H. destruct a as [x|ta]; [destruct b as [y|tb]|];
    [discriminate H| |]; apply tensor_op_incompatible; exact H.
Qed.

Lemma bind_eval_raise (A B : Type) (r : result A) (k : A -> method B)
      (self : object) (e : exn) :
  r = Raise e -> bind (eval r) k self = (Raise e, self).
Proof. intros ->. reflexivity. Qed.

Lemma num_is_zero_sq_true (x : xnum) :
  num_is_zero x = true -> num_is_zero (xpow x 2) = true.
Proof.
  destruct x as [q| | |]; simpl; try discriminate.
  intros H. apply is_zero_true in H. subst q. reflexivity.
Qed.

Section Failures.

Variable EPSILON : Qc.

(** A call whose [r] is a Python number never returns: if nothing raises
    before, [torch.zeros_like] rejects the number. *)
Theorem number_r_never_returns (self : object) (x : xnum) (M C G : pyval) :
  exists e, fst (get_metric EPSILON (Num x) M C G self) = Raise e.
Proof.
  destruct (fst (get_metric EPSILON (Num x) M C G self)) as [o|e] eqn:H;
    [|exists e; reflexivity].
  exfalso. unfold get_metric in H.
  repeat (apply bind_ok in H; destruct H as (? & ? & ? & H)).
  match goal with
  | E : eval (torch_zeros_like (Num x)) _ = _ |- _ =>
      apply eval_ok in E; discriminate E
  end.
Qed.

End Failures.

(** ** The metric at particular radii and masses *)





Section ParticularValues.

Variable EPSILON : Qc.

Local Open Scope Qc_scope.





End ParticularValues.

(** ** Calls do not depend on earlier calls *)

Section History.

Variable EPSILON : Qc.

(** In a sequence of calls on one instance, every call gives what it gives
    when made alone on that instance: earlier calls have no influence, which
    is what [cacheable = True] announces. *)
Theorem calls_independent (l : list call_args) (self : object) :
  fst (calls EPSILON l self)
  = map (fun args : call_args =>
           let '(r, M, C, G) := args in
           fst (get_metric EPSILON r M C G self)) l.
Proof.
  induction l as [|[[[r M] C] G] l IH]; simpl; [reflexivity|].
  pose proof (readonly_get_metric EPSILON r M C G self) as H.
  destruct (get_metric EPSILON r M C G self) as [o s1]. simpl in H. subst s1.
  destruct (calls EPSILON l self) as [os s2]. simpl in *.
  rewrite IH. reflexivity.
Qed.

End History.

(** ** [G_param] and [M_param] are interchangeable *)







Section Symmetries.

Variable EPSILON : Qc.


End Symmetries.

(** ** The metric sees [rs/r] only *)









Section Scaling.

Variable EPSILON : Qc.


End Scaling.

(** ** What the display name tells about [alpha] *)

Lemma append_cancel_l (p s1 s2 : string) :
  (p ++ s1 = p ++ s2)%string -> s1 = s2.
Proof.
  induction p as [|c p IH]; simpl; [auto|].
  intros [= H]. exact (IH H).
Qed.

Lemma append_assoc (s1 s2 s3 : string) :
  ((s1 ++ s2) ++ s3 = s1 ++ (s2 ++ s3))%string.
Proof.
  induction s1 as [|c s1 IH]; simpl; [reflexivity|].
  rewrite IH. reflexivity.
Qed.

(** A run of digits ends at the first character that is not a digit. *)
Lemma digits_then_inj (c : ascii) (i : string) :
  is_digit c = false ->
  forall i' t t',
    all_digits i = true -> all_digits i' = true ->
    (i ++ String c t = i' ++ String c t')%string ->
    i = i' /\ t = t'.
Proof.
  intros Hc. induction i as [|x i IH]; intros [|y i'] t t' Hi Hi' H;
    simpl in *.
  - injection H as <-. auto.
  - injection H as <- _. apply andb_true_iff in Hi'. destruct Hi'. congruence.
  - injection H as -> _. apply andb_true_iff in Hi. destruct Hi. congruence.
  - injection H as <- H. apply andb_true_iff in Hi, Hi'.
    destruct (IH i' t t' (proj2 Hi) (proj2 Hi') H) as [-> ->]. auto.
Qed.

Lemma to_uint_not_nil (n : N) : N.to_uint n <> Decimal.Nil.
Proof.
  intros E. pose proof (DecimalN.Unsigned.of_to n) as H.
  rewrite E in H. simpl in H. subst n. discriminate E.
Qed.

Lemma decimal_inj (n n' : Z) :
  (0 <= n)%Z -> (0 <= n')%Z -> decimal n = decimal n' -> n = n'.
Proof.
  intros Hn Hn' H. unfold decimal in H.
  apply (f_equal NilZero.uint_of_string) in H.
  rewrite !NilZero.usu in H by apply to_uint_not_nil.
  injection H as H. apply DecimalN.Unsigned.to_uint_inj in H.
  exact (Z2N.inj _ _ Hn Hn' H).
Qed.

Lemma digit_inj (d d' : Z) :
  (0 <= d <= 9)%Z -> (0 <= d' <= 9)%Z -> digit d = digit d' -> d = d'.
Proof.
  intros Hd Hd' H. unfold digit in H.
  apply (f_equal nat_of_ascii) in H.
  rewrite !nat_ascii_embedding in H by lia. lia.
Qed.

(** ** The further properties at sample inputs *)









(** ** What [EPSILON] is for *)

Section Regularisation.

Variable EPSILON : Qc.

Local Open Scope Qc_scope.


End Regularisation.



(** * The class over any arithmetic: properties *)

Module GenericFacts.

Import Generic.

Section Facts.

Variable B : backend.

Local Notation tensor := (tensor B).
Local Notation pyval := (pyval B).
Local Notation Num := (Num B).
Local Notation Tens := (Tens B).

(** ** Element-wise operations *)

Lemma g_map2_spec (f : elem B -> elem B -> elem B) (a b : tensor)
      (s : list nat) :
  bc_rev (rev (shape B a)) (rev (shape B b)) = Some s ->
  exists c,
    map2 B f a b = Some c /\ shape B c = rev s /\ wf B c /\
    forall S idx, bto s S -> Forall2 lt idx S ->
                  get_rev B c idx = f (get_rev B a idx) (get_rev B b idx).
Proof.
  intros Hs. unfold map2. rewrite Hs.
  eexists. split; [reflexivity|]. split; [reflexivity|]. split.
  - unfold wf. simpl. rewrite length_map, length_seq, numel_rev. reflexivity.
  - intros S idx HS Hr. destruct (bc_rev_bto _ _ _ Hs) as [Ha Hb].
    unfold get_rev at 1. simpl. rewrite rev_involutive.
    rewrite nth_map_seq by (exact (offset_lt _ _ _ HS Hr)).
    cbv zeta. unfold get_rev.
    rewrite (offset_project _ _ _ _ Ha HS Hr), (offset_project _ _ _ _ Hb HS Hr).
    reflexivity.
Qed.

Lemma g_map2_none (f : elem B -> elem B -> elem B) (a b : tensor) :
  bc_rev (rev (shape B a)) (rev (shape B b)) = None -> map2 B f a b = None.
Proof. intros H. unfold map2. rewrite H. reflexivity. Qed.

Lemma g_get_rev_map1 (f : elem B -> elem B) (t : tensor) (S idx : list nat) :
  wf B t -> bto (rev (shape B t)) S -> Forall2 lt idx S ->
  get_rev B (map1 B f t) idx = f (get_rev B t idx).
Proof.
  intros W HS Hr. unfold get_rev, map1. simpl.
  pose proof (offset_lt _ _ _ HS Hr) as Hlt.
  rewrite numel_rev, <- W in Hlt.
  rewrite (nth_indep _ (e_nan B) (f (e_nan B)))
    by (rewrite length_map; exact Hlt).
  apply map_nth.
Qed.

Lemma g_wf_map1 (f : elem B -> elem B) (t : tensor) :
  wf B t -> wf B (map1 B f t).
Proof. unfold wf, map1. simpl. rewrite length_map. auto. Qed.

(** ** Operators on Python values *)

Lemma as_tensor_ok (v : pyval) (tv : tensor) :
  as_tensor B v = Ok tv ->
  shape B tv = pshape B v /\ forall idx, get_rev B tv idx = aget B v idx.
Proof.
  destruct v as [x|t]; simpl.
  - destruct (wrap B x) as [e|ex]; [|discriminate].
    intros [= <-]. split; reflexivity.
  - intros [= <-]. split; reflexivity.
Qed.

(** What a tensor operation that returned has done. *)
Lemma tensor_op_inv (f : elem B -> elem B -> elem B) (a b v : pyval) :
  tensor_op B f a b = Ok v ->
  exists ta tb s c,
    as_tensor B a = Ok ta /\ as_tensor B b = Ok tb /\
    bc_rev (rev (pshape B a)) (rev (pshape B b)) = Some s /\
    v = Tens c /\ shape B c = rev s /\ wf B c /\
    forall S idx, bto s S -> Forall2 lt idx S ->
                  get_rev B c idx = f (aget B a idx) (aget B b idx).
Proof.
  unfold tensor_op. intros H.
  destruct (as_tensor B a) as [ta|] eqn:Ea; [|discriminate].
  destruct (as_tensor B b) as [tb|] eqn:Eb; [|discriminate].
  destruct (as_tensor_ok _ _ Ea) as [Sa Ga].
  destruct (as_tensor_ok _ _ Eb) as [Sb Gb].
  destruct (bc_rev (rev (shape B ta)) (rev (shape B tb))) as [s|] eqn:Hs.
  - destruct (g_map2_spec f ta tb s Hs) as (c & E & Sc & Wc & Pc).
    rewrite E in H. injection H as <-.
    exists ta, tb, s, c. rewrite <- Sa, <- Sb.
    repeat (split; [solve [auto]|]).
    intros S idx HS Hr. rewrite (Pc S idx HS Hr), Ga, Gb. reflexivity.
  - rewrite (g_map2_none f ta tb Hs) in H. discriminate.
Qed.

(** A tensor operation returns as soon as its operands can enter it and
    their sizes broadcast. *)
Lemma tensor_op_ok (f : elem B -> elem B -> elem B) (a b : pyval)
      (ta tb : tensor) (s : list nat) :
  as_tensor B a = Ok ta -> as_tensor B b = Ok tb ->
  bc_rev (rev (pshape B a)) (rev (pshape B b)) = Some s ->
  exists c, tensor_op B f a b = Ok (Tens c).
Proof.
  intros Ea Eb Hs. unfold tensor_op. rewrite Ea, Eb.
  destruct (as_tensor_ok _ _ Ea) as [Sa _].
  destruct (as_tensor_ok _ _ Eb) as [Sb _].
  rewrite <- Sa, <- Sb in Hs.
  destruct (g_map2_spec f ta tb s Hs) as (c & E & _).
  rewrite E. exists c. reflexivity.
Qed.

Lemma g_tensor_op_incompatible (f : elem B -> elem B -> elem B) (a b : pyval) :
  bc_rev (rev (pshape B a)) (rev (pshape B b)) = None ->
  exists ex, tensor_op B f a b = Raise ex.
Proof.
  intros H. unfold tensor_op.
  destruct (as_tensor B a) as [ta|ex] eqn:Ea; [|exists ex; reflexivity].
  destruct (as_tensor B b) as [tb|ex] eqn:Eb; [|exists ex; reflexivity].
  destruct (as_tensor_ok _ _ Ea) as [Sa _].
  destruct (as_tensor_ok _ _ Eb) as [Sb _].
  rewrite <- Sa, <- Sb in H. rewrite (g_map2_none f ta tb H).
  exists RuntimeError. reflexivity.
Qed.

(** The size of what a binary operator returned. *)
Lemma py_arith_shape (nf : num B -> num B -> result (num B))
      (ef : elem B -> elem B -> elem B) (a b v : pyval) :
  py_arith B nf ef a b = Ok v ->
  bc_rev (rev (pshape B a)) (rev (pshape B b)) = Some (rev (pshape B v)) /\
  is_num B v = andb (is_num B a) (is_num B b).
Proof.
  intros H.
  assert (Ht : tensor_op B ef a b = Ok v ->
               bc_rev (rev (pshape B a)) (rev (pshape B b))
               = Some (rev (pshape B v)) /\ is_num B v = false).
  { intros Ht. destruct (tensor_op_inv _ _ _ _ Ht)
      as (ta & tb & s & c & _ & _ & Hs & -> & Sc & _).
    simpl. rewrite Sc, rev_involutive. auto. }
  destruct a as [x|ta].
  - destruct b as [y|tb].
    + simpl in H. destruct (nf x y); [|discriminate].
      injection H as <-. split; reflexivity.
    + destruct (Ht H) as [Hs Hn]. rewrite Hn. auto.
  - destruct (Ht H) as [Hs Hn]. rewrite Hn. auto.
Qed.

Lemma g_py_arith_incompatible (nf : num B -> num B -> result (num B))
      (ef : elem B -> elem B -> elem B) (a b : pyval) :
  bc_rev (rev (pshape B a)) (rev (pshape B b)) = None ->
  exists ex, py_arith B nf ef a b = Raise ex.
Proof.
  intros H. destruct a as [x|ta]; [destruct b as [y|tb]|];
    [discriminate H| |]; apply g_tensor_op_incompatible; exact H.
Qed.

Lemma py_pow_shape (a v : pyval) (n : nat) :
  py_pow B a n = Ok v ->
  pshape B v = pshape B a /\ is_num B v = is_num B a.
Proof.
  destruct a as [x|t]; simpl.
  - destruct (n_pow B x n); [|discriminate]. intros [= <-]. auto.
  - intros [= <-]. auto.
Qed.

(** ** Running the method *)

Lemma g_bind_eval (A C : Type) (r : result A) (k : A -> method B C)
      (self : object B) (v : A) :
  r = Ok v -> bind B (eval B r) k self = k v self.
Proof. intros ->. reflexivity. Qed.

Lemma g_bind_eval_raise (A C : Type) (r : result A) (k : A -> method B C)
      (self : object B) (ex : exn) :
  r = Raise ex -> bind B (eval B r) k self = (Raise ex, self).
Proof. intros ->. reflexivity. Qed.

Lemma g_bind_getattr_alpha (C : Type) (k : tensor -> method B C)
      (self : object B) (a : tensor) :
  alpha B self = Some a -> bind B (getattr_alpha B) k self = k a self.
Proof. intros E. unfold bind, getattr_alpha. rewrite E. reflexivity. Qed.

Lemma g_bind_ok (A C : Type) (m : method B A) (k : A -> method B C)
      (self : object B) (c : C) :
  fst (bind B m k self) = Ok c ->
  exists a self', m self = (Ok a, self') /\ fst (k a self') = Ok c.
Proof.
  unfold bind. destruct (m self) as [[a|e] self']; simpl.
  - intros H. exists a, self'. auto.
  - discriminate.
Qed.

Lemma g_eval_ok (A : Type) (r : result A) (self self' : object B) (a : A) :
  eval B r self = (Ok a, self') -> r = Ok a /\ self' = self.
Proof. unfold eval. intros [= -> ->]. auto. Qed.

Lemma g_getattr_ok (self self' : object B) (a : tensor) :
  getattr_alpha B self = (Ok a, self') -> alpha B self = Some a /\ self' = self.
Proof.
  unfold getattr_alpha. destruct (alpha B self); [|discriminate].
  intros [= -> ->]. auto.
Qed.

Variable EPSILON : num B.

(** The body of the method after its first statement. *)
Lemma get_metric_from_rs (a : elem B) (t : tensor) (M C G rs : pyval)
      (w1 we : elem B) (S : list nat) (self : object B) :
  alpha B self = Some (scalar_tensor B a) ->
  schwarzschild_radius B M C G = Ok rs ->
  can_finish B EPSILON rs t w1 we S ->
  exists c0 c1,
    get_metric B EPSILON (Tens t) M C G self
    = (Ok (Tens c0, Tens c1, Tens (map1 B (fun x => e_pow B x 2) t),
           Tens (zeros_like B t)), self) /\
    shape B c0 = rev S /\ shape B c1 = rev S /\ wf B c0 /\ wf B c1 /\
    forall idx, Forall2 lt idx S ->
      let m := m_entry B w1 a (aget B rs idx) (get_rev B t idx) in
      get_rev B c0 idx = e_neg B m /\
      get_rev B c1 idx = e_div B w1 (e_add B m we).
Proof.
  intros Ha Hrs ((trs & Ers) & E1 & Ee & HS).
  assert (A1 : as_tensor B (Num (n_int B 1)) = Ok (scalar_tensor B w1))
    by (simpl; rewrite E1; reflexivity).
  assert (Ae : as_tensor B (Num EPSILON) = Ok (scalar_tensor B we))
    by (simpl; rewrite Ee; reflexivity).
  pose proof (bto_refl S) as BS.
  (* rs / r *)
  destruct (tensor_op_ok (e_div B) rs (Tens t) trs t S Ers eq_refl HS)
    as (x & E4).
  destruct (tensor_op_inv _ _ _ _ E4)
    as (_ & _ & s4 & x' & _ & _ & H4 & Ex & Sx & Wx & Px).
  injection Ex as <-. simpl pshape in H4. rewrite HS in H4. injection H4 as <-.
  assert (E4' : py_truediv B rs (Tens t) = Ok (Tens x))
    by (destruct rs; exact E4).
  assert (HxS : bc_rev [] (rev (shape B x)) = Some S)
    by (rewrite Sx, rev_involutive; reflexivity).
  (* 1 - rs/r *)
  destruct (tensor_op_ok (e_sub B) (Num (n_int B 1)) (Tens x) _ x S
              A1 eq_refl HxS) as (u & E5).
  destruct (tensor_op_inv _ _ _ _ E5)
    as (_ & _ & s5 & u' & _ & _ & H5 & Eu & Su & Wu & Pu).
  injection Eu as <-. simpl in H5. rewrite Sx, rev_involutive in H5.
  injection H5 as <-.
  (* self.alpha * (rs/r)**4 *)
  set (p := map1 B (fun y => e_pow B y 4) x).
  assert (Sp : rev (shape B p) = S) by (simpl; rewrite Sx; apply rev_involutive).
  destruct (tensor_op_ok (e_mul B) (Tens (scalar_tensor B a)) (Tens p) _ p S
              eq_refl eq_refl ltac:(simpl; rewrite Sx, rev_involutive; reflexivity))
    as (v & E6).
  destruct (tensor_op_inv _ _ _ _ E6)
    as (_ & _ & s6 & v' & _ & _ & H6 & Ev & Sv & Wv & Pv).
  injection Ev as <-. simpl in H6. rewrite Sx, rev_involutive in H6.
  injection H6 as <-.
  (* ... + ... *)
  destruct (tensor_op_ok (e_add B) (Tens u) (Tens v) u v S eq_refl eq_refl
              ltac:(simpl; rewrite Su, Sv, rev_involutive; apply bc_rev_refl))
    as (m & E7).
  destruct (tensor_op_inv _ _ _ _ E7)
    as (_ & _ & s7 & m' & _ & _ & H7 & Em & Sm & Wm & Pm).
  injection Em as <-. simpl in H7. rewrite Su, Sv, rev_involutive in H7.
  rewrite bc_rev_refl in H7. injection H7 as <-.
  (* m + EPSILON *)
  destruct (tensor_op_ok (e_add B) (Tens m) (Num EPSILON) m _ S eq_refl Ae
              ltac:(simpl; rewrite Sm, rev_involutive; apply bc_rev_nil_r))
    as (d & E8).
  destruct (tensor_op_inv _ _ _ _ E8)
    as (_ & _ & s8 & d' & _ & _ & H8 & Ed & Sd & Wd & Pd).
  injection Ed as <-. simpl in H8. rewrite Sm, rev_involutive in H8.
  rewrite bc_rev_nil_r in H8. injection H8 as <-.
  (* 1 / (m + EPSILON) *)
  destruct (tensor_op_ok (e_div B) (Num (n_int B 1)) (Tens d) _ d S A1 eq_refl
              ltac:(simpl; rewrite Sd, rev_involutive; reflexivity))
    as (inv & E9).
  destruct (tensor_op_inv _ _ _ _ E9)
    as (_ & _ & s9 & inv' & _ & _ & H9 & Ei & Si & Wi & Pi).
  injection Ei as <-. simpl in H9. rewrite Sd, rev_involutive in H9.
  injection H9 as <-.
  exists (map1 B (e_neg B) m), inv.
  split; [|split; [exact Sm|split; [exact Si|split;
             [exact (g_wf_map1 _ m Wm)|split; [exact Wi|]]]]].
  - unfold get_metric.
    rewrite (g_bind_eval _ _ _ _ _ rs Hrs).
    rewrite (g_bind_eval _ _ _ _ _ (Tens x) E4').
    rewrite (g_bind_eval _ _ _ _ _ (Tens u) E5).
    rewrite (g_bind_getattr_alpha _ _ _ _ Ha).
    rewrite (g_bind_eval _ _ _ _ _ (Tens x) E4').
    rewrite (g_bind_eval _ _ _ _ _ (Tens p) eq_refl).
    rewrite (g_bind_eval _ _ _ _ _ (Tens v) E6).
    rewrite (g_bind_eval _ _ _ _ _ (Tens m) E7).
    rewrite (g_bind_eval _ _ _ _ _ (Tens d) E8).
    rewrite (g_bind_eval _ _ _ _ _ (Tens inv) E9).
    rewrite (g_bind_eval _ _ _ _ _
               (Tens (map1 B (fun y => e_pow B y 2) t)) eq_refl).
    rewrite (g_bind_eval _ _ _ _ _ (Tens (zeros_like B t)) eq_refl).
    reflexivity.
  - intros idx Hr. cbv zeta.
    assert (Hm : get_rev B m idx
                 = m_entry B w1 a (aget B rs idx) (get_rev B t idx)).
    { rewrite (Pm S idx BS Hr). simpl aget.
      rewrite (Pu S idx BS Hr), (Pv S idx BS Hr). simpl aget. rewrite E1.
      unfold p.
      rewrite (g_get_rev_map1 _ x S idx Wx
                 ltac:(rewrite Sx, rev_involutive; exact BS) Hr).
      rewrite (Px S idx BS Hr). reflexivity. }
    split.
    + rewrite (g_get_rev_map1 _ m S idx Wm
                 ltac:(rewrite Sm, rev_involutive; exact BS) Hr), Hm.
      reflexivity.
    + rewrite (Pi S idx BS Hr). simpl aget. rewrite E1.
      rewrite (Pd S idx BS Hr). simpl aget. rewrite Ee, Hm. reflexivity.
Qed.

Lemma as_tensor_num_ok (x : num B) (tx : tensor) :
  as_tensor B (Num x) = Ok tx -> exists e, wrap B x = Ok e.
Proof.
  simpl. destruct (wrap B x) as [e|]; [|discriminate]. exists e. reflexivity.
Qed.

(** A call that returned got through every statement. *)
Lemma get_metric_returns_inv (t : tensor) (M C G : pyval) (self : object B)
      (o : outputs B) :
  fst (get_metric B EPSILON (Tens t) M C G self) = Ok o ->
  exists rs w1 we S,
    schwarzschild_radius B M C G = Ok rs /\ can_finish B EPSILON rs t w1 we S.
Proof.
  intros H. unfold get_metric in H.
  apply g_bind_ok in H. destruct H as (rs & s1 & Hrs & H).
  apply g_eval_ok in Hrs. destruct Hrs as [Hrs ->].
  apply g_bind_ok in H. destruct H as (x & s2 & Hx & H).
  apply g_eval_ok in Hx. destruct Hx as [Hx ->].
  assert (Hx' : tensor_op B (e_div B) rs (Tens t) = Ok x)
    by (destruct rs; exact Hx).
  destruct (tensor_op_inv _ _ _ _ Hx')
    as (trs & _ & S & cx & Ers & _ & HS & -> & Sx & _).
  apply g_bind_ok in H. destruct H as (u & s3 & Hu & H).
  apply g_eval_ok in Hu. destruct Hu as [Hu ->].
  destruct (tensor_op_inv _ _ _ _ Hu)
    as (t1 & _ & _ & cu & E1 & _ & _ & -> & _).
  destruct (as_tensor_num_ok _ _ E1) as (w1 & W1).
  apply g_bind_ok in H. destruct H as (al & s4 & Hal & H).
  apply g_getattr_ok in Hal. destruct Hal as [Hal ->].
  apply g_bind_ok in H. destruct H as (x2 & s5 & _ & H).
  apply g_bind_ok in H. destruct H as (p & s6 & _ & H).
  apply g_bind_ok in H. destruct H as (v & s7 & _ & H).
  apply g_bind_ok in H. destruct H as (m & s8 & Hm & H).
  apply g_eval_ok in Hm. destruct Hm as [Hm _].
  destruct (tensor_op_inv _ _ _ _ Hm) as (_ & _ & _ & cm & _ & _ & _ & -> & _).
  apply g_bind_ok in H. destruct H as (d & s9 & Hd & H).
  apply g_eval_ok in Hd. destruct Hd as [Hd _].
  destruct (tensor_op_inv _ _ _ _ Hd) as (_ & te & _ & _ & _ & Ee & _).
  destruct (as_tensor_num_ok _ _ Ee) as (we & We).
  exists rs, w1, we, S. split; [exact Hrs|].
  split; [exists trs; exact Ers|]. auto.
Qed.

(** The result of a call that returned, on an instance whose [alpha] is
    the 0-dimensional tensor holding [a]. *)
Lemma returned_values (a : elem B) (t : tensor) (M C G : pyval)
      (self : object B) (o : outputs B) :
  alpha B self = Some (scalar_tensor B a) ->
  fst (get_metric B EPSILON (Tens t) M C G self) = Ok o ->
  exists rs w1 we S c0 c1,
    schwarzschild_radius B M C G = Ok rs /\
    can_finish B EPSILON rs t w1 we S /\
    o = (Tens c0, Tens c1, Tens (map1 B (fun x => e_pow B x 2) t),
         Tens (zeros_like B t)) /\
    shape B c0 = rev S /\ shape B c1 = rev S /\ wf B c0 /\ wf B c1 /\
    forall idx, Forall2 lt idx S ->
      let m := m_entry B w1 a (aget B rs idx) (get_rev B t idx) in
      get_rev B c0 idx = e_neg B m /\
      get_rev B c1 idx = e_div B w1 (e_add B m we).
Proof.
  intros Ha H.
  destruct (get_metric_returns_inv t M C G self o H)
    as (rs & w1 & we & S & Hrs & Hfin).
  destruct (get_metric_from_rs a t M C G rs w1 we S self Ha Hrs Hfin)
    as (c0 & c1 & E & R).
  exists rs, w1, we, S, c0, c1.
  split; [exact Hrs|]. split; [exact Hfin|].
  split; [|exact R]. rewrite E in H. simpl in H. congruence.
Qed.

(** ** Sizes *)

Lemma schwarzschild_radius_shape (M C G rs : pyval) :
  schwarzschild_radius B M C G = Ok rs ->
  exists s1,
    bc_rev (rev (pshape B G)) (rev (pshape B M)) = Some s1 /\
    bc_rev s1 (rev (pshape B C)) = Some (rev (pshape B rs)).
Proof.
  unfold schwarzschild_radius. intros H.
  destruct (py_mul B (Num (n_int B 2)) G) as [g2|] eqn:E1; [|discriminate].
  destruct (py_mul B g2 M) as [gm|] eqn:E2; [|discriminate].
  destruct (py_pow B C 2) as [c2|] eqn:E3; [|discriminate].
  destruct (py_arith_shape _ _ _ _ _ E1) as [S1 _].
  destruct (py_arith_shape _ _ _ _ _ E2) as [S2 _].
  destruct (py_arith_shape _ _ _ _ _ H) as [S3 _].
  destruct (py_pow_shape _ _ _ E3) as [S4 _].
  simpl in S1. injection S1 as S1. rewrite <- S1 in S2. rewrite S4 in S3.
  exists (rev (pshape B gm)). auto.
Qed.

Lemma broadcast_sizes_chain (sG sM sC sr s1 s2 S : list nat) :
  bc_rev (rev sG) (rev sM) = Some s1 ->
  bc_rev s1 (rev sC) = Some s2 ->
  bc_rev s2 (rev sr) = Some S ->
  broadcast_sizes sG sM sC sr = Some (rev S).
Proof.
  intros H1 H2 H3. unfold broadcast_sizes, broadcast_shapes.
  rewrite H1. simpl. rewrite rev_involutive, H2. simpl.
  rewrite rev_involutive, H3. reflexivity.
Qed.



Lemma returned_common_size (t : tensor) (M C G rs : pyval) (S : list nat) :
  schwarzschild_radius B M C G = Ok rs ->
  bc_rev (rev (pshape B rs)) (rev (shape B t)) = Some S ->
  broadcast_sizes (pshape B G) (pshape B M) (pshape B C) (shape B t)
  = Some (rev S).
Proof.
  intros Hrs HS.
  destruct (schwarzschild_radius_shape _ _ _ _ Hrs) as (s1 & H1 & H2).
  exact (broadcast_sizes_chain _ _ _ _ _ _ _ H1 H2 HS).
Qed.

(** ** The theorems over any arithmetic *)


(** Operands whose sizes do not broadcast together make the call raise,
    on any instance and with any arithmetic. *)
Theorem incompatible_sizes_never_return (t : tensor) (M C G : pyval)
        (self : object B) :
  broadcast_sizes (pshape B G) (pshape B M) (pshape B C) (shape B t) = None ->
  exists ex, fst (get_metric B EPSILON (Tens t) M C G self) = Raise ex.
Proof.
  intros Hn.
  destruct (fst (get_metric B EPSILON (Tens t) M C G self)) as [o|ex] eqn:H;
    [|exists ex; reflexivity].
  exfalso.
  destruct (get_metric_returns_inv t M C G self o H)
    as (rs & w1 & we & S & Hrs & (_ & _ & _ & HS)).
  rewrite (returned_common_size t M C G rs S Hrs HS) in Hn. discriminate.
Qed.

(** With [G_param], [M_param] and [C_param] Python numbers and [C_param]
    zero, the call raises, whatever [r] and the instance are: the square of
    zero is zero and Python does not divide by it. *)
Theorem zero_speed_never_returns (Hz : python_zero B) (r : pyval)
        (m c g : num B) (self : object B) :
  n_is_zero B c = true ->
  exists ex,
    fst (get_metric B EPSILON r (Num m) (Num c) (Num g) self) = Raise ex.
Proof.
  intros Hc.
  assert (E : exists ex, schwarzschild_radius B (Num m) (Num c) (Num g)
                         = Raise ex).
  { unfold schwarzschild_radius, py_mul, py_truediv, py_arith, py_pow.
    destruct (n_mul B (n_int B 2) g) as [g2|ex]; [|exists ex; reflexivity].
    destruct (n_mul B g2 m) as [gm|ex]; [|exists ex; reflexivity].
    destruct (n_pow B c 2) as [c2|ex] eqn:E2; [|exists ex; reflexivity].
    destruct (truediv_zero B Hz gm c2 (pow_zero B Hz c c2 Hc E2)) as (ex & E3).
    rewrite E3. exists ex. reflexivity. }
  destruct E as (ex & E). exists ex. unfold get_metric.
  rewrite (g_bind_eval_raise _ _ _ _ _ ex E). reflexivity.
Qed.


(** Whenever a call on a tensor [r] returns, it returns [-m],
    [1/(m + EPSILON)], [r ** 2] and [torch.zeros_like(r)], where at every
    index [m = 1 - rs/r + alpha*(rs/r)**4] is computed from the value [rs]
    of the first statement with the operations of the backend, in the order
    of the source. *)
Theorem returned_formula (a : elem B) (t : tensor) (M C G : pyval)
        (self : object B) (o : outputs B) :
  alpha B self = Some (scalar_tensor B a) ->
  fst (get_metric B EPSILON (Tens t) M C G self) = Ok o ->
  exists rs w1 we S c0 c1,
    schwarzschild_radius B M C G = Ok rs /\
    wrap B (n_int B 1) = Ok w1 /\ wrap B EPSILON = Ok we /\
    broadcast_sizes (pshape B G) (pshape B M) (pshape B C) (shape B t)
    = Some S /\
    o = (Tens c0, Tens c1, Tens (map1 B (fun x => e_pow B x 2) t),
         Tens (zeros_like B t)) /\
    (wf B c0 /\ wf B c1 /\ shape B c0 = S /\ shape B c1 = S) /\
    forall idx, in_range S idx ->
      let x := e_div B (at_ B rs idx) (get B t idx) in
      let m := e_add B (e_sub B w1 x) (e_mul B a (e_pow B x 4)) in
      get B c0 idx = e_neg B m /\
      get B c1 idx = e_div B w1 (e_add B m we).
Proof.
  intros Ha H.
  destruct (returned_values a t M C G self o Ha H)
    as (rs & w1 & we & S & c0 & c1 & Hrs & (_ & H1 & He & HS) & -> & S0 & S1
        & W0 & W1 & P).
  exists rs, w1, we, (rev S), c0, c1.
  split; [exact Hrs|]. split; [exact H1|]. split; [exact He|].
  split; [exact (returned_common_size t M C G rs S Hrs HS)|].
  split; [reflexivity|]. split; [auto|].
  intros idx Hr. apply in_range_rev in Hr. rewrite rev_involutive in Hr.
  exact (P (rev idx) Hr).
Qed.

End Facts.

End GenericFacts.

(** * Binary64 arithmetic: properties *)

Module IEEEFacts.

Import SpecFloat.
Import IEEE.

(** ** Special values *)


Lemma binary64_python_zero : Generic.python_zero binary64.
Proof.
  constructor; simpl.
  - intros c c2 Hc. destruct c; try discriminate.
    unfold py_float_pow. simpl. intros [= <-]. reflexivity.
  - intros x y Hy. unfold py_float_truediv. rewrite Hy.
    exists ZeroDivisionError. reflexivity.
Qed.

(** ** Python floats in the first statement *)

Lemma first_statement_floats (G M C : float) :
  Generic.schwarzschild_radius binary64 (pyfloat M) (pyfloat C) (pyfloat G)
  = match py_float_pow C 2 with
    | Raise ex => Raise ex
    | Ok c2 =>
        match py_float_truediv (fmul (fmul f2 G) M) c2 with
        | Raise ex => Raise ex
        | Ok rs => Ok (pyfloat rs)
        end
    end.
Proof.
  unfold Generic.schwarzschild_radius, Generic.py_mul, Generic.py_pow,
    Generic.py_truediv, Generic.py_arith, pyfloat. simpl.
  destruct (py_float_pow C 2) as [c2|]; [|reflexivity].
  destruct (py_float_truediv (fmul (fmul (of_int 2) G) M) c2); reflexivity.
Qed.

(** With Python floats for the three parameters, the first statement
    raises [OverflowError] when [C_param ** 2] overflows and
    [ZeroDivisionError] when [C_param ** 2] is zero, which is also the case
    of a non-zero [C_param] whose square underflows; the call raises with
    it, whatever [r] and the instance are. *)
Theorem float_speed_squared_errors (EPSILON G M C : float) (r : pyval)
        (self : object) :
  (finite C = true -> is_inf (fpow C 2) = true ->
   fst (get_metric EPSILON r (pyfloat M) (pyfloat C) (pyfloat G) self)
   = Raise OverflowError) /\
  (is_zero (fpow C 2) = true ->
   fst (get_metric EPSILON r (pyfloat M) (pyfloat C) (pyfloat G) self)
   = Raise ZeroDivisionError).
Proof.
  split.
  - intros Hf Hi.
    unfold get_metric, Generic.get_metric.
    rewrite (GenericFacts.g_bind_eval_raise binary64 _ _ _ _ _ OverflowError);
      [reflexivity|].
    rewrite first_statement_floats. unfold py_float_pow. rewrite Hf, Hi.
    reflexivity.
  - intros Hz.
    unfold get_metric, Generic.get_metric.
    rewrite (GenericFacts.g_bind_eval_raise binary64 _ _ _ _ _ ZeroDivisionError);
      [reflexivity|].
    rewrite first_statement_floats. unfold py_float_pow.
    destruct (finite C && is_inf (fpow C 2))%bool eqn:E.
    + apply andb_true_iff in E. destruct E as [_ E].
      destruct (fpow C 2); discriminate.
    + unfold py_float_truediv. rewrite Hz. reflexivity.
Qed.

(** ** Concrete calls *)



(** ** The display name *)

Lemma round_half_even_nearest (q : Q) : nearest_even q (round_half_even q).
Proof.
  destruct q as [N D]. unfold nearest_even, round_half_even.
  cbn [Qnum Qden].
  pose proof (Z.div_mod N (Zpos D) ltac:(discriminate)) as Hdm.
  pose proof (Z.mod_pos_bound N (Zpos D) ltac:(reflexivity)) as Hr.
  set (fl := (N / Zpos D)%Z) in *. set (rm := (N mod Zpos D)%Z) in *.
  assert (Hab : forall n : Z,
             (Qabs ((N # D) - inject_Z n) <= 1 # 2)%Q <->
             (2 * Z.abs (N - n * Zpos D) <= Zpos D)%Z).
  { intros n. unfold Qle, Qabs, Qminus, Qplus, Qopp, inject_Z.
    cbn [Qnum Qden]. rewrite ?Pos2Z.inj_mul. lia. }
  assert (Hae : forall n : Z,
             (Qabs ((N # D) - inject_Z n) == 1 # 2)%Q <->
             (2 * Z.abs (N - n * Zpos D) = Zpos D)%Z).
  { intros n. unfold Qeq, Qabs, Qminus, Qplus, Qopp, inject_Z.
    cbn [Qnum Qden]. rewrite ?Pos2Z.inj_mul. lia. }
  rewrite Hab, Hae.
  destruct (Z.compare_spec (2 * rm) (Zpos D)) as [He|Hl|Hg].
  - destruct (Z.even fl) eqn:Ev.
    + split; [nia|]. intros _. exact Ev.
    + split; [nia|]. intros _. rewrite Z.even_add, Ev. reflexivity.
  - split; [nia|]. intros H. exfalso. nia.
  - split; [nia|]. intros H. exfalso. nia.
Qed.

Lemma nearest_even_unique (q : Q) (n n' : Z) :
  nearest_even q n -> nearest_even q n' -> n = n'.
Proof.
  destruct q as [N D]. unfold nearest_even.
  assert (Hab : forall n : Z,
             (Qabs ((N # D) - inject_Z n) <= 1 # 2)%Q <->
             (2 * Z.abs (N - n * Zpos D) <= Zpos D)%Z).
  { intros k. unfold Qle, Qabs, Qminus, Qplus, Qopp, inject_Z.
    cbn [Qnum Qden]. rewrite ?Pos2Z.inj_mul. lia. }
  assert (Hae : forall n : Z,
             (Qabs ((N # D) - inject_Z n) == 1 # 2)%Q <->
             (2 * Z.abs (N - n * Zpos D) = Zpos D)%Z).
  { intros k. unfold Qeq, Qabs, Qminus, Qplus, Qopp, inject_Z.
    cbn [Qnum Qden]. rewrite ?Pos2Z.inj_mul. lia. }
  rewrite !Hab, !Hae. intros [H1 E1] [H2 E2].
  assert (Hd : (n = n' \/ n' = n + 1 \/ n = n' + 1)%Z) by nia.
  destruct Hd as [Hd|[Hd|Hd]]; [exact Hd| |]; exfalso.
  - subst n'. assert (A : (2 * Z.abs (N - n * Z.pos D) = Z.pos D)%Z) by nia.
    assert (A' : (2 * Z.abs (N - (n + 1) * Z.pos D) = Z.pos D)%Z) by nia.
    specialize (E1 A). specialize (E2 A').
    rewrite Z.even_add, E1 in E2. discriminate E2.
  - subst n. assert (A : (2 * Z.abs (N - n' * Z.pos D) = Z.pos D)%Z) by nia.
    assert (A' : (2 * Z.abs (N - (n' + 1) * Z.pos D) = Z.pos D)%Z) by nia.
    specialize (E2 A). specialize (E1 A').
    rewrite Z.even_add, E2 in E1. discriminate E1.
Qed.

Lemma nearest_even_eq (q q' : Q) (n : Z) :
  (q == q')%Q -> nearest_even q n -> nearest_even q' n.
Proof.
  intros E [H1 H2]. unfold nearest_even. rewrite <- E. split; assumption.
Qed.

Lemma exact_hundredths_magnitude (s : bool) (m : positive) (e : Z) :
  (exact_hundredths m e == magnitude (S754_finite s m e) * (100 # 1))%Q.
Proof.
  unfold exact_hundredths, magnitude.
  destruct e as [|k|k]; unfold Qeq, Qmult; cbn [Qnum Qden];
    rewrite ?Pos2Z.inj_mul; ring.
Qed.

Lemma float_hundredths_nearest (x : float) :
  finite x = true ->
  (0 <= float_hundredths x)%Z /\
  nearest_even (magnitude x * (100 # 1)) (float_hundredths x).
Proof.
  destruct x as [s|s| |s m e]; try discriminate; intros _.
  - split; [reflexivity|]. split; [discriminate|discriminate].
  - unfold float_hundredths. split.
    + apply round_half_even_cases. unfold exact_hundredths.
      destruct e as [|k|k]; cbn [Qnum]; lia.
    + apply (nearest_even_eq _ _ _ (exact_hundredths_magnitude s m e)).
      apply round_half_even_nearest.
Qed.

Lemma format_finite (x : float) :
  finite x = true ->
  format_plus_2f x
  = String (sign_of (sign_bit x))
      (decimal (float_hundredths x / 100) ++ "."
       ++ two_digits (float_hundredths x mod 100))%string.
Proof. destruct x; try discriminate; reflexivity. Qed.

Lemma constructed (x : float) :
  Generic.EinsteinFinalTorsional binary64 x
  = Ok (Generic.mkObj binary64 (Some (Generic.display_name binary64 x))
          (Some (Generic.scalar_tensor binary64 x)) None true).
Proof. reflexivity. Qed.

Lemma nat_of_digit (d : Z) :
  (0 <= d <= 9)%Z -> nat_of_ascii (digit d) = 48 + Z.to_nat d.
Proof. intros H. unfold digit. apply nat_ascii_embedding. lia. Qed.

(** C2: the display name of an instance constructed with a finite float
    [alpha] is ["Einstein Final (Torsional, α="], then the sign of [alpha]
    (["-"] when the sign bit is set, also for [-0.0], ["+"] otherwise), the
    decimal digits of [n / 100] without leading zero, a point, the two
    decimal digits of [n mod 100], then [")"], where [n] is the integer
    nearest to [|alpha| * 100], the even one when [|alpha| * 100] is
    half-way between two integers.  For [alpha = 0.0] the name is
    ["Einstein Final (Torsional, α=+0.00)"]. *)
Theorem display_name_signed_two_decimals (x : float) :
  finite x = true ->
  (exists (self : object) (n : Z) (d1 d2 : ascii),
      Generic.EinsteinFinalTorsional binary64 x = Ok self /\
      Generic.name binary64 self
      = Some ("Einstein Final (Torsional, α="
              ++ String (if sign_bit x then "-" else "+")
                   (NilZero.string_of_uint (N.to_uint (Z.to_N (n / 100)))
                    ++ String "." (String d1 (String d2 ")"))))%string /\
      (0 <= n)%Z /\
      nearest_even (magnitude x * (100 # 1)) n /\
      nat_of_ascii d1 = 48 + Z.to_nat (n mod 100 / 10) /\
      nat_of_ascii d2 = 48 + Z.to_nat (n mod 10)) /\
  Generic.name binary64 (instance f0)
  = Some "Einstein Final (Torsional, α=+0.00)"%string.
Proof.
  intros Hf. split; [|reflexivity].
  destruct (float_hundredths_nearest x Hf) as [Hpos Hnear].
  set (n := float_hundredths x) in *.
  exists (Generic.mkObj binary64 (Some (Generic.display_name binary64 x))
            (Some (Generic.scalar_tensor binary64 x)) None true),
    n, (digit (n mod 100 / 10)), (digit ((n mod 100) mod 10)).
  split; [reflexivity|]. split.
  - cbn [Generic.name]. f_equal. unfold Generic.display_name.
    cbn [Generic.n_format binary64]. rewrite (format_finite x Hf). fold n.
    apply (f_equal (append "Einstein Final (Torsional, α=")).
    unfold sign_of.
    change (String (if sign_bit x then "-"%char else "+"%char)
              (decimal (n / 100) ++ "." ++ two_digits (n mod 100)) ++ ")")%string
      with (String (if sign_bit x then "-"%char else "+"%char)
              ((decimal (n / 100) ++ "." ++ two_digits (n mod 100)) ++ ")"))%string.
    f_equal. rewrite append_assoc. reflexivity.
  - split; [exact Hpos|]. split; [exact Hnear|].
    pose proof (Z.mod_pos_bound n 100 ltac:(reflexivity)).
    pose proof (Z.mod_pos_bound (n mod 100) 10 ltac:(reflexivity)).
    assert (Hq : (0 <= n mod 100 / 10 <= 9)%Z)
      by (split; [apply Z.div_pos; lia
                 |apply Z.lt_succ_r, Z.div_lt_upper_bound; lia]).
    split; [apply nat_of_digit; exact Hq|].
    replace (n mod 10)%Z with ((n mod 100) mod 10)%Z
      by (pose proof (Z.div_mod n 100 ltac:(discriminate));
          pose proof (Z.div_mod n 10 ltac:(discriminate));
          pose proof (Z.div_mod (n mod 100) 10 ltac:(discriminate));
          pose proof (Z.mod_pos_bound n 10 ltac:(reflexivity)); lia).
    apply nat_of_digit. lia.
Qed.

(** A sign and two decimals give back the sign and the hundredths. *)
Lemma rendering_inj (c c' : ascii) (n n' : Z) :
  (0 <= n)%Z -> (0 <= n')%Z ->
  (String c (decimal (n / 100) ++ "." ++ two_digits (n mod 100)) ++ ")"
   = String c' (decimal (n' / 100) ++ "." ++ two_digits (n' mod 100)) ++ ")")%string ->
  c = c' /\ n = n'.
Proof.
  intros Ha Hb. simpl append at 1 5.
  intros [= Hs H]. split; [exact Hs|].
  rewrite !append_assoc in H. simpl in H.
  destruct (decimal_digits (n / 100)) as [D _].
  destruct (decimal_digits (n' / 100)) as [D' _].
  destruct (digits_then_inj "."%char _ eq_refl _ _ _ D D' H) as [Hi Ht].
  injection Ht as H1 H2.
  pose proof (Z.mod_pos_bound n 100 ltac:(reflexivity)).
  pose proof (Z.mod_pos_bound n' 100 ltac:(reflexivity)).
  pose proof (Z.mod_pos_bound (n mod 100) 10 ltac:(reflexivity)).
  pose proof (Z.mod_pos_bound (n' mod 100) 10 ltac:(reflexivity)).
  assert (Q : (0 <= n mod 100 / 10 <= 9)%Z)
    by (split; [apply Z.div_pos; lia|apply Z.lt_succ_r, Z.div_lt_upper_bound; lia]).
  assert (Q' : (0 <= n' mod 100 / 10 <= 9)%Z)
    by (split; [apply Z.div_pos; lia|apply Z.lt_succ_r, Z.div_lt_upper_bound; lia]).
  apply decimal_inj in Hi; [|apply Z.div_pos; lia|apply Z.div_pos; lia].
  apply digit_inj in H1; [|assumption|assumption].
  apply digit_inj in H2; [|lia|lia].
  pose proof (Z.div_mod n 100 ltac:(discriminate)).
  pose proof (Z.div_mod n' 100 ltac:(discriminate)).
  pose proof (Z.div_mod (n mod 100) 10 ltac:(discriminate)).
  pose proof (Z.div_mod (n' mod 100) 10 ltac:(discriminate)).
  lia.
Qed.

Lemma sign_of_inj (s s' : bool) : sign_of s = sign_of s' -> s = s'.
Proof. destruct s, s'; simpl; intros H; try reflexivity; discriminate H. Qed.

Lemma some_string_inj (s1 s2 : string) : Some s1 = Some s2 -> s1 = s2.
Proof. intros E. injection E as E. exact E. Qed.

(** Two instances constructed with finite floats have the same display
    name exactly when the two floats have the same sign bit and
    [|alpha| * 100] rounds to the same integer: the name identifies [alpha]
    up to the two decimals it prints, and tells [0.0] from [-0.0]. *)
Theorem display_name_identifies_alpha (x y : float) :
  finite x = true -> finite y = true ->
  (Generic.name binary64 (instance x) = Generic.name binary64 (instance y) <->
   sign_bit x = sign_bit y /\
   exists n : Z,
     nearest_even (magnitude x * (100 # 1)) n /\
     nearest_even (magnitude y * (100 # 1)) n).
Proof.
  intros Hx Hy.
  change (Generic.name binary64 (instance x))
    with (Some (Generic.display_name binary64 x)).
  change (Generic.name binary64 (instance y))
    with (Some (Generic.display_name binary64 y)).
  destruct (float_hundredths_nearest x Hx) as [Px Nx].
  destruct (float_hundredths_nearest y Hy) as [Py Ny].
  unfold Generic.display_name. cbn [Generic.n_format binary64].
  rewrite (format_finite x Hx), (format_finite y Hy).
  split.
  - intros H. apply some_string_inj, append_cancel_l in H.
    destruct (rendering_inj _ _ _ _ Px Py H) as [Hs Hn].
    split; [exact (sign_of_inj _ _ Hs)|].
    exists (float_hundredths x). split; [exact Nx|]. rewrite Hn. exact Ny.
  - intros [Hs (n & Hn & Hn')].
    rewrite (nearest_even_unique _ _ _ Nx Hn), (nearest_even_unique _ _ _ Ny Hn'), Hs.
    reflexivity.
Qed.

Lemma magnitude_nonneg (x : float) : (0 <= Qnum (magnitude x))%Z.
Proof.
  destruct x as [s|s| |s m e]; unfold magnitude; cbn [Qnum]; try lia.
  destruct e as [|k|k]; cbn [Qnum]; lia.
Qed.

Lemma nearest_even_small (q : Q) :
  (0 <= Qnum q)%Z -> (q < 1 # 200)%Q -> nearest_even (q * (100 # 1)) 0.
Proof.
  destruct q as [N D]. cbn [Qnum]. intros HN Hlt.
  unfold Qlt in Hlt. cbn [Qnum Qden] in Hlt.
  unfold nearest_even, Qle, Qeq, Qabs, Qminus, Qplus, Qopp, Qmult, inject_Z.
  cbn [Qnum Qden]. rewrite ?Pos2Z.inj_mul. split; [lia|]. intros H. exfalso. lia.
Qed.

(** A finite float smaller than half a hundredth in absolute value is
    printed as zero with its sign bit: ["-0.00"] for a negative [alpha] and
    for [-0.0], ["+0.00"] otherwise. *)
Theorem small_alpha_display_name (x : float) :
  finite x = true -> (magnitude x < 1 # 200)%Q ->
  Generic.name binary64 (instance x)
  = Some (if sign_bit x
          then "Einstein Final (Torsional, α=-0.00)"
          else "Einstein Final (Torsional, α=+0.00)")%string.
Proof.
  intros Hx Hs.
  change (Generic.name binary64 (instance x))
    with (Some (Generic.display_name binary64 x)).
  destruct (float_hundredths_nearest x Hx) as [_ Nx].
  pose proof (nearest_even_unique _ _ _ Nx
                (nearest_even_small _ (magnitude_nonneg x) Hs)) as H0.
  unfold Generic.display_name. cbn [Generic.n_format binary64].
  rewrite (format_finite x Hx), H0.
  destruct (sign_bit x); reflexivity.
Qed.

Lemma display_name_signed_two_decimals_witness :
  finite fm0375 = true /\
  (exists (self : object) (n : Z) (d1 d2 : ascii),
      Generic.EinsteinFinalTorsional binary64 fm0375 = Ok self /\
      Generic.name binary64 self
      = Some ("Einstein Final (Torsional, α="
              ++ String (if sign_bit fm0375 then "-" else "+")
                   (NilZero.string_of_uint (N.to_uint (Z.to_N (n / 100)))
                    ++ String "." (String d1 (String d2 ")"))))%string /\
      (0 <= n)%Z /\
      nearest_even (magnitude fm0375 * (100 # 1)) n /\
      nat_of_ascii d1 = 48 + Z.to_nat (n mod 100 / 10) /\
      nat_of_ascii d2 = 48 + Z.to_nat (n mod 10)) /\
  Generic.name binary64 (instance f0)
  = Some "Einstein Final (Torsional, α=+0.00)"%string.
Proof.
  split; [reflexivity|].
  exact (display_name_signed_two_decimals fm0375 eq_refl).
Defined.

(** The names of [-0.375] (a tie, rounded to the even [38]), [0.125]
    (a tie, rounded to the even [12]), [-0.0], [-0.001] and [12345.0]. *)
Example display_names :
  Generic.name binary64 (instance fm0375)
  = Some "Einstein Final (Torsional, α=-0.38)"%string /\
  Generic.name binary64 (instance (pow2 (-3)))
  = Some "Einstein Final (Torsional, α=+0.12)"%string /\
  Generic.name binary64 (instance fm0)
  = Some "Einstein Final (Torsional, α=-0.00)"%string /\
  Generic.name binary64 (instance fm0001)
  = Some "Einstein Final (Torsional, α=-0.00)"%string /\
  Generic.name binary64 (instance (of_int 12345))
  = Some "Einstein Final (Torsional, α=+12345.00)"%string.
Proof. repeat split; vm_compute; reflexivity. Qed.

Lemma display_name_identifies_alpha_witness :
  finite fm0 = true /\ finite fm0001 = true /\
  (Generic.name binary64 (instance fm0) = Generic.name binary64 (instance fm0001)
   <->
   sign_bit fm0 = sign_bit fm0001 /\
   exists n : Z,
     nearest_even (magnitude fm0 * (100 # 1)) n /\
     nearest_even (magnitude fm0001 * (100 # 1)) n).
Proof.
  split; [reflexivity|]. split; [reflexivity|].
  exact (display_name_identifies_alpha fm0 fm0001 eq_refl eq_refl).
Defined.

Lemma small_alpha_display_name_witness :
  finite fm0001 = true /\ (magnitude fm0001 < 1 # 200)%Q /\
  Generic.name binary64 (instance fm0001)
  = Some (if sign_bit fm0001
          then "Einstein Final (Torsional, α=-0.00)"
          else "Einstein Final (Torsional, α=+0.00)")%string.
Proof.
  assert (H : (magnitude fm0001 < 1 # 200)%Q) by (vm_compute; reflexivity).
  split; [reflexivity|]. split; [exact H|].
  exact (small_alpha_display_name fm0001 eq_refl H).
Defined.

(** ** The theorems at sample inputs *)

Lemma returned_ok (c : result (Generic.outputs binary64)) :
  returns c = true -> c = Ok (returned c).
Proof. destruct c; [reflexivity|discriminate]. Qed.


Lemma incompatible_sizes_never_return_witness :
  Generic.broadcast_sizes [] [3] [] [2; 2] = None /\
  exists ex,
    fst (get_metric eps (Generic.Tens binary64 r_grid)
           (Generic.Tens binary64 m_triple) (pyfloat f1) (pyfloat f1)
           (instance half)) = Raise ex.
Proof.
  split; [reflexivity|].
  exact (GenericFacts.incompatible_sizes_never_return binary64 eps r_grid
           (Generic.Tens binary64 m_triple) (pyfloat f1) (pyfloat f1)
           (instance half) eq_refl).
Defined.

Lemma zero_speed_never_returns_witness :
  is_zero fm0 = true /\
  exists ex,
    fst (get_metric eps (Generic.Tens binary64 r_grid) (pyfloat f1)
           (pyfloat fm0) (pyfloat f1) (instance half)) = Raise ex.
Proof.
  split; [reflexivity|].
  exact (GenericFacts.zero_speed_never_returns binary64 eps
           binary64_python_zero (Generic.Tens binary64 r_grid) f1 fm0 f1
           (instance half) eq_refl).
Defined.

Lemma float_speed_squared_errors_witness :
  finite f1e200 = true /\ is_inf (fpow f1e200 2) = true /\
  is_zero (fpow f1em200 2) = true /\
  fst (get_metric eps (Generic.Tens binary64 r_grid) (pyfloat f1)
         (pyfloat f1e200) (pyfloat f1) (instance half))
  = Raise OverflowError /\
  fst (get_metric eps (Generic.Tens binary64 r_grid) (pyfloat f1)
         (pyfloat f1em200) (pyfloat f1) (instance half))
  = Raise ZeroDivisionError.
Proof.
  assert (Hi : is_inf (fpow f1e200 2) = true) by (vm_compute; reflexivity).
  assert (Hz : is_zero (fpow f1em200 2) = true) by (vm_compute; reflexivity).
  split; [reflexivity|]. split; [exact Hi|]. split; [exact Hz|]. split.
  - exact (proj1 (float_speed_squared_errors eps f1 f1 f1e200
                    (Generic.Tens binary64 r_grid) (instance half))
             eq_refl Hi).
  - exact (proj2 (float_speed_squared_errors eps f1 f1 f1em200
                    (Generic.Tens binary64 r_grid) (instance half)) Hz).
Defined.




Lemma returned_formula_witness :
  let call :=
    fst (get_metric eps (Generic.Tens binary64 r_grid)
           (Generic.Tens binary64 m_pair) (pyfloat f1) (pyfloat f1)
           (instance half)) in
  Generic.alpha binary64 (instance half)
  = Some (Generic.scalar_tensor binary64 half) /\
  call = Ok (returned call) /\
  exists rs w1 we S c0 c1,
    Generic.schwarzschild_radius binary64 (Generic.Tens binary64 m_pair)
      (pyfloat f1) (pyfloat f1) = Ok rs /\
    Ok f1 = Ok w1 /\ Ok eps = Ok we /\
    Generic.broadcast_sizes [] [2] [] [2; 2] = Some S /\
    returned call
    = (Generic.Tens binary64 c0, Generic.Tens binary64 c1,
       Generic.Tens binary64 (Generic.map1 binary64 (fun x => fpow x 2) r_grid),
       Generic.Tens binary64 (Generic.zeros_like binary64 r_grid)) /\
    (Generic.wf binary64 c0 /\ Generic.wf binary64 c1 /\
     Generic.shape binary64 c0 = S /\ Generic.shape binary64 c1 = S) /\
    forall idx, in_range S idx ->
      let x := fdiv (Generic.at_ binary64 rs idx)
                 (Generic.get binary64 r_grid idx) in
      let m := fadd (fsub w1 x) (fmul half (fpow x 4)) in
      Generic.get binary64 c0 idx = fneg m /\
      Generic.get binary64 c1 idx = fdiv w1 (fadd m we).
Proof.
  intros call.
  assert (E : call = Ok (returned call))
    by (apply returned_ok; vm_compute; reflexivity).
  split; [reflexivity|]. split; [exact E|].
  exact (GenericFacts.returned_formula binary64 eps half r_grid
           (Generic.Tens binary64 m_pair) (pyfloat f1) (pyfloat f1)
           (instance half) (returned call) eq_refl E).
Defined.

(** [alpha = 0.5], [M = C = G = 1.0], [r = tensor([4.])] in binary64:
    component 0 is [-0.53125]. *)
Example scenario_binary64 :
  let call :=
    fst (get_metric eps (Generic.Tens binary64 (vector [of_int 4]))
           (pyfloat f1) (pyfloat f1) (pyfloat f1) (instance half)) in
  component0 call = Some [fneg (fdiv (of_int 17) (of_int 32))] /\
  sizes call = Some ([1], [1], [1], [1]).
Proof. split; vm_compute; reflexivity. Qed.


End IEEEFacts.
